(** * vinyldns-js: the request pipeline of [src/vinyldns.js]

    A shallow embedding of the [VinylDNS] class: the descriptor built by
    [_requestOptions], the signing and dispatch done by [_request], the
    completion callback that settles the returned promise, and the facade
    methods on top of them.

    What the class calls but does not define is kept apart:
    - [JSON.stringify] and [JSON.parse] (language built-ins) are modelled
      in [Module JSON] below, on data whose numbers are integers;
    - [url.parse] (Node) and [aws4.sign] (third-party package) are
      parameters of the development ([Class Runtime]);
    - [./urls] (the URL builder the class requires; its source is not
      part of what is verified here) is a parameter too ([Urls.Builder]). *)

From Stdlib Require Import ZArith NArith String Ascii List Permutation.
From Stdlib Require Import Decimal DecimalPos.
From stdpp Require Import base tactics option list gmap strings.

Open Scope string_scope.
Open Scope Z_scope.

(* [json] and [json_equiv] are nested in [list]; no scheme is wanted for that. *)
Set Warnings "-register-all".

(** ** JSON-representable data *)

(** A JS value that [JSON.stringify] writes and [JSON.parse] gives back.
    An object is the list of its own enumerable properties in enumeration
    order; a string is the sequence of its bytes.  Numbers are the integers
    (those of the API's resources: ttl, port, priority, ...); a fraction
    or an exponent would take JS's floating point and is left out. *)
Inductive json : Type :=
| JNull
| JBool (b : bool)
| JNum (n : Z)
| JStr (s : string)
| JArr (items : list json)
| JObj (members : list (string * json)).

(** [undefined] or JSON data: what a caller hands to a facade method. *)
Abbreviation value := (option json).

(** JS truthiness ([x ? a : b]) on JSON data. *)
Definition truthy (v : json) : bool :=
  match v with
  | JNull => false
  | JBool b => b
  | JNum n => negb (n =? 0)
  | JStr s => negb (String.eqb s "")
  | JArr _ | JObj _ => true
  end.

(** An instance of [Error]: what is thrown, and what a promise is
    rejected with.  [own] holds further properties set on the object (the
    transport's [code], [errno], ...). *)
Module Error.
Record t : Type := { name : string; message : string; own : list (string * json) }.
End Error.

(** [new Error(message)] *)
Definition new_Error (message : string) : Error.t :=
  {| Error.name := "Error"; Error.message := message; Error.own := [] |}.

Definition new_TypeError (message : string) : Error.t :=
  {| Error.name := "TypeError"; Error.message := message; Error.own := [] |}.

Definition new_SyntaxError (message : string) : Error.t :=
  {| Error.name := "SyntaxError"; Error.message := message; Error.own := [] |}.

Module JSON.

Definition dquote : ascii := "034"%char.
Definition backslash : ascii := "\"%char.

(** *** Numbers *)

Fixpoint uint_to_string (d : uint) : string :=
  match d with
  | Nil => ""
  | D0 d => String "0" (uint_to_string d)
  | D1 d => String "1" (uint_to_string d)
  | D2 d => String "2" (uint_to_string d)
  | D3 d => String "3" (uint_to_string d)
  | D4 d => String "4" (uint_to_string d)
  | D5 d => String "5" (uint_to_string d)
  | D6 d => String "6" (uint_to_string d)
  | D7 d => String "7" (uint_to_string d)
  | D8 d => String "8" (uint_to_string d)
  | D9 d => String "9" (uint_to_string d)
  end.

(** [Number.prototype.toString] on an integer: its decimal digits. *)
Definition Number_toString (z : Z) : string :=
  match z with
  | Z0 => "0"
  | Zpos p => uint_to_string (Pos.to_uint p)
  | Zneg p => String "-" (uint_to_string (Pos.to_uint p))
  end.

(** *** Strings *)

Definition hex_digit (n : N) : ascii :=
  ascii_of_N (if (n <? 10)%N then 48 + n else 87 + n).

(** [QuoteJSONString] on one character. *)
Definition escape_char (c : ascii) : string :=
  let n := N_of_ascii c in
  if Ascii.eqb c dquote then String backslash (String dquote "")
  else if Ascii.eqb c backslash then String backslash (String backslash "")
  else if (n =? 8)%N then String backslash "b"
  else if (n =? 9)%N then String backslash "t"
  else if (n =? 10)%N then String backslash "n"
  else if (n =? 12)%N then String backslash "f"
  else if (n =? 13)%N then String backslash "r"
  else if (n <? 32)%N then
    String backslash
      (String "u" (String "0" (String "0"
         (String (hex_digit (n / 16)) (String (hex_digit (n mod 16)) "")))))
  else String c "".

Fixpoint escape (s : string) : string :=
  match s with
  | "" => ""
  | String c s' => escape_char c ++ escape s'
  end.

Definition quote (s : string) : string :=
  String dquote (escape s ++ String dquote "").

(** *** [JSON.stringify] (no indentation) *)

Definition member_text (text : json -> string) (kv : string * json) : string :=
  quote (fst kv) ++ ":" ++ text (snd kv).

Fixpoint stringify (v : json) : string :=
  match v with
  | JNull => "null"
  | JBool true => "true"
  | JBool false => "false"
  | JNum n => Number_toString n
  | JStr s => quote s
  | JArr items => "[" ++ String.concat "," (map stringify items) ++ "]"
  | JObj members => "{" ++ String.concat "," (map (member_text stringify) members) ++ "}"
  end.

(** *** [JSON.parse] *)

Definition is_ws (c : ascii) : bool :=
  let n := N_of_ascii c in
  ((n =? 32) || (n =? 9) || (n =? 10) || (n =? 13))%N.

Fixpoint skip_ws (s : string) : string :=
  match s with
  | String c s' => if is_ws c then skip_ws s' else s
  | "" => ""
  end.

(** [expect lit s]: [s] without its prefix [lit], when it has it. *)
Fixpoint expect (lit s : string) : option string :=
  match lit with
  | "" => Some s
  | String c lit' =>
    match s with
    | String c' s' => if Ascii.eqb c c' then expect lit' s' else None
    | "" => None
    end
  end.

Definition digit_of (c : ascii) : option (uint -> uint) :=
  match N_of_ascii c with
  | 48 => Some D0 | 49 => Some D1 | 50 => Some D2 | 51 => Some D3
  | 52 => Some D4 | 53 => Some D5 | 54 => Some D6 | 55 => Some D7
  | 56 => Some D8 | 57 => Some D9
  | _ => None
  end%N.

(** The longest run of decimal digits at the head of [s], and what follows. *)
Fixpoint scan_uint (s : string) : uint * string :=
  match s with
  | String c s' =>
    match digit_of c with
    | Some D => let '(d, r) := scan_uint s' in (D d, r)
    | None => (Nil, s)
    end
  | "" => (Nil, "")
  end.

(** A fraction or an exponent would start here. *)
Definition continues_number (s : string) : bool :=
  match s with
  | String c _ => Ascii.eqb c "." || Ascii.eqb c "e" || Ascii.eqb c "E"
  | "" => false
  end.

(** A zero followed by more digits. *)
Definition leading_zero (d : uint) : bool :=
  match d with
  | D0 Nil => false
  | D0 _ => true
  | _ => false
  end.

(** A single zero, or a run of digits that does not start with zero.
    JS goes on to read a fraction or an exponent; the data modelled here
    has no value for such a number, so a text that holds one is refused
    (the one place where this parser refuses a text that [JSON.parse]
    accepts). *)
Definition parse_magnitude (s : string) : option (N * string) :=
  let '(d, r) := scan_uint s in
  match d with
  | Nil => None
  | _ => if leading_zero d || continues_number r then None else Some (Pos.of_uint d, r)
  end.

Definition parse_number (s : string) : option (json * string) :=
  match s with
  | String c s' =>
    if Ascii.eqb c "-"
    then '(m, r) ← parse_magnitude s'; Some (JNum (- Z.of_N m), r)
    else '(m, r) ← parse_magnitude s; Some (JNum (Z.of_N m), r)
  | "" => None
  end.

Definition hex_value (c : ascii) : option N :=
  let n := N_of_ascii c in
  if ((48 <=? n) && (n <=? 57))%N then Some (n - 48)%N
  else if ((97 <=? n) && (n <=? 102))%N then Some (n - 87)%N
  else if ((65 <=? n) && (n <=? 70))%N then Some (n - 55)%N
  else None.

(** The UTF-8 bytes of a code unit given by a [\uXXXX] escape. *)
Definition utf8 (n : N) (tail : string) : string :=
  (if n <? 128 then String (ascii_of_N n) tail
   else if n <? 2048 then
     String (ascii_of_N (192 + n / 64)) (String (ascii_of_N (128 + n mod 64)) tail)
   else
     String (ascii_of_N (224 + n / 4096))
       (String (ascii_of_N (128 + (n / 64) mod 64))
          (String (ascii_of_N (128 + n mod 64)) tail)))%N.

(** The characters of a string literal after its opening quote, up to and
    without the closing quote. *)
Fixpoint parse_chars (s : string) : option (string * string) :=
  match s with
  | "" => None
  | String c s' =>
    if Ascii.eqb c dquote then Some ("", s')
    else if Ascii.eqb c backslash then
      match s' with
      | "" => None
      | String e r =>
        let plain (c' : ascii) := '(t, r') ← parse_chars r; Some (String c' t, r') in
        if Ascii.eqb e dquote then plain dquote
        else if Ascii.eqb e backslash then plain backslash
        else if Ascii.eqb e "/" then plain "/"%char
        else if Ascii.eqb e "b" then plain "008"%char
        else if Ascii.eqb e "f" then plain "012"%char
        else if Ascii.eqb e "n" then plain "010"%char
        else if Ascii.eqb e "r" then plain "013"%char
        else if Ascii.eqb e "t" then plain "009"%char
        else if Ascii.eqb e "u" then
          match r with
          | String h3 (String h2 (String h1 (String h0 r4))) =>
            a ← hex_value h3; b ← hex_value h2; c1 ← hex_value h1; d ← hex_value h0;
            '(t, r') ← parse_chars r4;
            Some (utf8 (((a * 16 + b) * 16 + c1) * 16 + d)%N t, r')
          | _ => None
          end
        else None
      end
    else if (N_of_ascii c <? 32)%N then None
    else '(t, r) ← parse_chars s'; Some (String c t, r)
  end.

(** Defining a property on an object under construction: a later
    occurrence of a key replaces the value and keeps the place. *)
Fixpoint define (k : string) (v : json) (ms : list (string * json)) : list (string * json) :=
  match ms with
  | [] => [(k, v)]
  | (k', v') :: ms' => if String.eqb k k' then (k, v) :: ms' else (k', v') :: define k v ms'
  end.

Definition object_of (ms : list (string * json)) : json :=
  JObj (fold_left (fun acc kv => define (fst kv) (snd kv) acc) ms []).

(** Recursive descent.  Every call takes one unit of [fuel] and a value
    has at least one character, so [parse_text] below gives as fuel the
    length of the text and one more. *)
Fixpoint parse_value (fuel : nat) (s : string) {struct fuel} : option (json * string) :=
  match fuel with
  | O => None
  | S fuel =>
    match skip_ws s with
    | "" => None
    | String c r =>
      if Ascii.eqb c "{" then
        match skip_ws r with
        | String c' r' =>
          if Ascii.eqb c' "}" then Some (JObj [], r')
          else '(ms, r'') ← parse_members fuel (String c' r'); Some (object_of ms, r'')
        | "" => None
        end
      else if Ascii.eqb c "[" then
        match skip_ws r with
        | String c' r' =>
          if Ascii.eqb c' "]" then Some (JArr [], r')
          else '(xs, r'') ← parse_elements fuel (String c' r'); Some (JArr xs, r'')
        | "" => None
        end
      else if Ascii.eqb c dquote then '(t, r') ← parse_chars r; Some (JStr t, r')
      else if Ascii.eqb c "t" then r' ← expect "rue" r; Some (JBool true, r')
      else if Ascii.eqb c "f" then r' ← expect "alse" r; Some (JBool false, r')
      else if Ascii.eqb c "n" then r' ← expect "ull" r; Some (JNull, r')
      else parse_number (String c r)
    end
  end
with parse_elements (fuel : nat) (s : string) {struct fuel} : option (list json * string) :=
  match fuel with
  | O => None
  | S fuel =>
    '(x, r) ← parse_value fuel s;
    match skip_ws r with
    | String c r' =>
      if Ascii.eqb c "," then '(xs, r'') ← parse_elements fuel r'; Some (x :: xs, r'')
      else if Ascii.eqb c "]" then Some ([x], r')
      else None
    | "" => None
    end
  end
with parse_members (fuel : nat) (s : string) {struct fuel} : option (list (string * json) * string) :=
  match fuel with
  | O => None
  | S fuel =>
    match skip_ws s with
    | String q r =>
      if Ascii.eqb q dquote then
        '(k, r1) ← parse_chars r;
        match skip_ws r1 with
        | String c r2 =>
          if Ascii.eqb c ":" then
            '(x, r3) ← parse_value fuel r2;
            match skip_ws r3 with
            | String c' r4 =>
              if Ascii.eqb c' "," then '(ms, r5) ← parse_members fuel r4; Some ((k, x) :: ms, r5)
              else if Ascii.eqb c' "}" then Some ([(k, x)], r4)
              else None
            | "" => None
            end
          else None
        | "" => None
        end
      else None
    | "" => None
    end
  end.

(** The text is one value between optional white space. *)
Definition parse_text (s : string) : option json :=
  '(v, r) ← parse_value (S (String.length s)) s;
  if String.eqb (skip_ws r) "" then Some v else None.

(** [JSON.parse]: the value, or a [SyntaxError] thrown (its message is
    engine-specific; one text stands for it here).

    This agrees with the built-in on every text that is not JSON, and on
    the JSON texts that denote the data of [json]: numbers written as
    integers of magnitude at most 2^53 - 1, strings whose [\u] escapes
    name no surrogate, objects whose keys are not written as array
    indices out of ascending order.  The built-in accepts more: it reads
    a fraction or an exponent (refused here, see [parse_magnitude]),
    rounds a larger integer to the nearest double, joins a surrogate pair
    into one character, and enumerates index-like keys first. *)
Definition parse (s : string) : Error.t + json :=
  match parse_text s with
  | Some v => inr v
  | None => inl (new_SyntaxError "Unexpected token in JSON")
  end.

End JSON.

(** ** Strings *)

Definition upper (c : ascii) : ascii :=
  let n := N_of_ascii c in
  if ((97 <=? n) && (n <=? 122))%N then ascii_of_N (n - 32) else c.

(** [String.prototype.toUpperCase], on ASCII letters. *)
Fixpoint toUpperCase (s : string) : string :=
  match s with
  | "" => ""
  | String c s' => String (upper c) (toUpperCase s')
  end.

(** [String.prototype.includes] *)
Fixpoint includes (part whole : string) : bool :=
  String.prefix part whole ||
  match whole with
  | "" => false
  | String _ rest => includes part rest
  end.

(** ** Effects

    A computation reads the clock (the signer does), logs what it does to
    the outside, and returns or throws. *)

Module Req.
(** The object [_requestOptions] returns, [aws4.sign] signs and [request]
    sends. *)
Record t : Type := {
  host : option string;
  uri : string;
  method : string;
  path : option string;
  headers : gmap string string;
  body : string }.
End Req.

Module Credentials.
Record t : Type := { accessKeyId : option string; secretAccessKey : option string }.
End Credentials.

Module Resp.
Record t : Type := { statusCode : Z; body : string }.
End Resp.

Inductive event : Type :=
| Sign (opts : Req.t) (credentials : Credentials.t)  (* aws4.sign(opts, credentials) *)
| Send (signedReq : Req.t)                           (* request(signedReq, callback) *)
| ReadStatus (statusCode : Z)                        (* resp.statusCode >= 400 *)
| Parse (text : string)                              (* JSON.parse(resp.body) *)
| Fulfill (v : json)                                 (* fulfill(v) *)
| Reject (e : Error.t).                              (* reject(e) *)

Definition M (A : Type) : Type := Z -> list event * (Error.t + A).

Definition ret {A} (a : A) : M A := fun _ => ([], inr a).

Definition bind {A B} (m : M A) (k : A -> M B) : M B :=
  fun now =>
    let '(l1, r1) := m now in
    match r1 with
    | inl e => (l1, inl e)
    | inr a => let '(l2, r2) := k a now in ((l1 ++ l2)%list, r2)
    end.

Definition throw {A} (e : Error.t) : M A := fun _ => ([], inl e).

Definition emit (ev : event) : M unit := fun _ => ([ev], inr tt).

Definition clock : M Z := fun now => ([], inr now).

Notation "'let*' x ':=' m 'in' k" := (bind m (fun x => k))
  (at level 10, x pattern, m at level 200, k at level 200).

(** ** The promise *)

Inductive promise : Type :=
| Pending
| Fulfilled (v : json)
| Rejected (e : Error.t).

(** The first call of [fulfill] or [reject] settles; later ones do nothing. *)
Definition settle (p : promise) (ev : event) : promise :=
  match p, ev with
  | Pending, Fulfill v => Fulfilled v
  | Pending, Reject e => Rejected e
  | _, _ => p
  end.

Definition promise_of (log : list event) : promise := fold_left settle log Pending.

Definition is_settling (ev : event) : bool :=
  match ev with
  | Fulfill _ | Reject _ => true
  | _ => false
  end.

(** How many times [fulfill] or [reject] was called. *)
Definition settlements (log : list event) : nat := length (List.filter is_settling log).

(** ** What the class is given *)

Module Config.
(** The constructor's [config]; a field that is not there reads as
    [undefined] ([None]). *)
Record t : Type := {
  apiUrl : option string;
  accessKeyId : option string;
  secretAccessKey : option string }.
End Config.

Module Url.
(** The part of [url.parse(s)] that [_requestOptions] reads. *)
Record t : Type := { host : option string; path : option string }.
End Url.

Module Opts.
(** The argument of [_requestOptions]. *)
Record t : Type := { url : string; method : option string; body : value }.
End Opts.

(** Node's [url.parse] and the [aws4] package's [sign].  [aws4.sign] is
    taken as a function of the descriptor, the credentials and the clock
    reading it stamps the request with. *)
Class Runtime : Type := {
  url_parse : string -> Url.t;
  aws4_sign : Req.t -> Credentials.t -> Z -> Req.t }.

Module Urls.
(** The methods of [./urls] that the facade calls. *)
Inductive method : Type :=
| getZones | zone | getZoneChanges | syncZone | zonesBase
| getRecordSets | recordSet | recordSetsBase | recordSetChange | recordSetChanges
| batchChanges | batchChange
| getGroups | group | getGroupActivity | getGroupAdmins | getGroupMembers | groupsBase.

(** [new Urls(apiUrl)] and a method call [urls.m(args)], which gives a URL. *)
Class Builder (U : Type) : Type := {
  new : option string -> Error.t + U;
  call : U -> method -> list value -> string }.
End Urls.

(** ** The class *)

Record VinylDNS (U : Type) : Type := { config : Config.t; urls : U }.
Arguments config {U} _.
Arguments urls {U} _.

(** What the transport hands to the callback: [(err)] or [(null, resp)]. *)
Inductive completion : Type :=
| Failed (err : Error.t)
| Responded (resp : Resp.t).

(** A promise returned by [_request], as the callback that will settle it. *)
Definition pending : Type := option Error.t -> option Resp.t -> M unit.

Section Class.
Context {U : Type} {builder : Urls.Builder U} {runtime : Runtime}.

(** [constructor(config)] *)
Definition constructor (config : Config.t) : Error.t + VinylDNS U :=
  match Urls.new (Config.apiUrl config) with
  | inl e => inl e
  | inr urls => inr {| config := config; urls := urls |}
  end.

(** [o.k] for a caller's value [o] *)
Definition prop (o : value) (k : string) : M value :=
  match o with
  | None => throw (new_TypeError ("Cannot read property '" ++ k ++ "' of undefined"))
  | Some JNull => throw (new_TypeError ("Cannot read property '" ++ k ++ "' of null"))
  | Some (JObj members) => ret (snd <$> find (fun kv => String.eqb (fst kv) k) members)
  | Some _ => ret None
  end.

Definition _requestOptions (opts : Opts.t) : Req.t :=
  let parsedUrl := url_parse (Opts.url opts) in
  {| Req.host := Url.host parsedUrl;
     Req.uri := Opts.url opts;
     Req.method :=
       match Opts.method opts with
       | Some m => if String.eqb m "" then "GET" else toUpperCase m
       | None => "GET"
       end;
     Req.path := Url.path parsedUrl;
     Req.headers := {[ "Content-Type" := "application/json" ]};
     Req.body :=
       match Opts.body opts with
       | Some b => if truthy b then JSON.stringify b else ""
       | None => ""
       end |}.

Definition reject (e : Error.t) : M unit := emit (Reject e).
Definition fulfill (v : json) : M unit := emit (Fulfill v).

(** The callback given to [request]. *)
Definition callback : pending := fun err resp =>
  match err with
  | Some e => reject e
  | None =>
    match resp with
    | None => throw (new_TypeError "Cannot read property 'statusCode' of undefined")
    | Some resp =>
      let* _ := emit (ReadStatus (Resp.statusCode resp)) in
      if 400 <=? Resp.statusCode resp then
        reject (new_Error (JSON.Number_toString (Resp.statusCode resp) ++ ": " ++ Resp.body resp))
      else
        let* _ := emit (Parse (Resp.body resp)) in
        match JSON.parse (Resp.body resp) with
        | inl e => throw e
        | inr v => fulfill v
        end
    end
  end.

Definition _request (this : VinylDNS U) (opts : Req.t) : M pending :=
  let credentials :=
    {| Credentials.accessKeyId := Config.accessKeyId (config this);
       Credentials.secretAccessKey := Config.secretAccessKey (config this) |} in
  let* now := clock in
  let* _ := emit (Sign opts credentials) in
  let signedReq := aws4_sign opts credentials now in
  let* _ := emit (Send signedReq) in
  ret callback.

Definition _getOrDelete (this : VinylDNS U) (url : string) (method : string) : M pending :=
  _request this (_requestOptions {| Opts.url := url; Opts.method := Some method; Opts.body := None |}).

Definition _createOrUpdate (this : VinylDNS U) (resource : value) (url : string) (method : string)
  : M pending :=
  _request this (_requestOptions {| Opts.url := url; Opts.method := Some method; Opts.body := resource |}).

Definition _sync (this : VinylDNS U) (url : string) : M pending :=
  _request this (_requestOptions {| Opts.url := url; Opts.method := Some "post"; Opts.body := None |}).

(** *** The facade *)

Definition getZones (this : VinylDNS U) (queryOpts : value) : M pending :=
  _getOrDelete this (Urls.call (urls this) Urls.getZones [queryOpts]) "get".

Definition getZone (this : VinylDNS U) (id : value) : M pending :=
  _getOrDelete this (Urls.call (urls this) Urls.zone [id]) "get".

Definition getZoneChanges (this : VinylDNS U) (id queryOpts : value) : M pending :=
  _getOrDelete this (Urls.call (urls this) Urls.getZoneChanges [id; queryOpts]) "get".

Definition syncZone (this : VinylDNS U) (id : value) : M pending :=
  _sync this (Urls.call (urls this) Urls.syncZone [id]).

Definition createZone (this : VinylDNS U) (zone : value) : M pending :=
  _createOrUpdate this zone (Urls.call (urls this) Urls.zonesBase []) "post".

Definition updateZone (this : VinylDNS U) (zone : value) : M pending :=
  let* id := prop zone "id" in
  _createOrUpdate this zone (Urls.call (urls this) Urls.zone [id]) "put".

Definition deleteZone (this : VinylDNS U) (id : value) : M pending :=
  _getOrDelete this (Urls.call (urls this) Urls.zone [id]) "delete".

Definition getRecordSets (this : VinylDNS U) (zoneId queryOpts : value) : M pending :=
  _getOrDelete this (Urls.call (urls this) Urls.getRecordSets [zoneId; queryOpts]) "get".

Definition getRecordSet (this : VinylDNS U) (details : value) : M pending :=
  _getOrDelete this (Urls.call (urls this) Urls.recordSet [details]) "get".

Definition createRecordSet (this : VinylDNS U) (recordSet : value) : M pending :=
  let* zoneId := prop recordSet "zoneId" in
  _createOrUpdate this recordSet (Urls.call (urls this) Urls.recordSetsBase [zoneId]) "post".

Definition updateRecordSet (this : VinylDNS U) (recordSet : value) : M pending :=
  _createOrUpdate this recordSet (Urls.call (urls this) Urls.recordSet [recordSet]) "put".

Definition deleteRecordSet (this : VinylDNS U) (details : value) : M pending :=
  _getOrDelete this (Urls.call (urls this) Urls.recordSet [details]) "delete".

Definition getRecordSetChange (this : VinylDNS U) (details : value) : M pending :=
  _getOrDelete this (Urls.call (urls this) Urls.recordSetChange [details]) "get".

Definition getRecordSetChanges (this : VinylDNS U) (zoneId queryOpts : value) : M pending :=
  _getOrDelete this (Urls.call (urls this) Urls.recordSetChanges [zoneId; queryOpts]) "get".

Definition getBatchChanges (this : VinylDNS U) (queryOpts : value) : M pending :=
  _getOrDelete this (Urls.call (urls this) Urls.batchChanges [queryOpts]) "get".

Definition getBatchChange (this : VinylDNS U) (id : value) : M pending :=
  _getOrDelete this (Urls.call (urls this) Urls.batchChange [id]) "get".

Definition createBatchChange (this : VinylDNS U) (batchChange : value) : M pending :=
  _createOrUpdate this batchChange (Urls.call (urls this) Urls.batchChanges []) "post".

Definition getGroups (this : VinylDNS U) (queryOpts : value) : M pending :=
  _getOrDelete this (Urls.call (urls this) Urls.getGroups [queryOpts]) "get".

Definition getGroup (this : VinylDNS U) (id : value) : M pending :=
  _getOrDelete this (Urls.call (urls this) Urls.group [id]) "get".

Definition getGroupActivity (this : VinylDNS U) (id queryOpts : value) : M pending :=
  _getOrDelete this (Urls.call (urls this) Urls.getGroupActivity [id; queryOpts]) "get".

Definition getGroupAdmins (this : VinylDNS U) (id : value) : M pending :=
  _getOrDelete this (Urls.call (urls this) Urls.getGroupAdmins [id]) "get".

Definition getGroupMembers (this : VinylDNS U) (id queryOpts : value) : M pending :=
  _getOrDelete this (Urls.call (urls this) Urls.getGroupMembers [id; queryOpts]) "get".

Definition createGroup (this : VinylDNS U) (group : value) : M pending :=
  _createOrUpdate this group (Urls.call (urls this) Urls.groupsBase []) "post".

Definition updateGroup (this : VinylDNS U) (group : value) : M pending :=
  let* id := prop group "id" in
  _createOrUpdate this group (Urls.call (urls this) Urls.group [id]) "put".

Definition deleteGroup (this : VinylDNS U) (id : value) : M pending :=
  _getOrDelete this (Urls.call (urls this) Urls.group [id]) "delete".

(** *** Every facade method, as one type *)

Inductive operation : Type :=
| GetZones (queryOpts : value)
| GetZone (id : value)
| GetZoneChanges (id queryOpts : value)
| SyncZone (id : value)
| CreateZone (zone : value)
| UpdateZone (zone : value)
| DeleteZone (id : value)
| GetRecordSets (zoneId queryOpts : value)
| GetRecordSet (details : value)
| CreateRecordSet (recordSet : value)
| UpdateRecordSet (recordSet : value)
| DeleteRecordSet (details : value)
| GetRecordSetChange (details : value)
| GetRecordSetChanges (zoneId queryOpts : value)
| GetBatchChanges (queryOpts : value)
| GetBatchChange (id : value)
| CreateBatchChange (batchChange : value)
| GetGroups (queryOpts : value)
| GetGroup (id : value)
| GetGroupActivity (id queryOpts : value)
| GetGroupAdmins (id : value)
| GetGroupMembers (id queryOpts : value)
| CreateGroup (group : value)
| UpdateGroup (group : value)
| DeleteGroup (id : value).

Definition invoke (this : VinylDNS U) (op : operation) : M pending :=
  match op with
  | GetZones q => getZones this q
  | GetZone id => getZone this id
  | GetZoneChanges id q => getZoneChanges this id q
  | SyncZone id => syncZone this id
  | CreateZone z => createZone this z
  | UpdateZone z => updateZone this z
  | DeleteZone id => deleteZone this id
  | GetRecordSets z q => getRecordSets this z q
  | GetRecordSet d => getRecordSet this d
  | CreateRecordSet r => createRecordSet this r
  | UpdateRecordSet r => updateRecordSet this r
  | DeleteRecordSet d => deleteRecordSet this d
  | GetRecordSetChange d => getRecordSetChange this d
  | GetRecordSetChanges z q => getRecordSetChanges this z q
  | GetBatchChanges q => getBatchChanges this q
  | GetBatchChange id => getBatchChange this id
  | CreateBatchChange b => createBatchChange this b
  | GetGroups q => getGroups this q
  | GetGroup id => getGroup this id
  | GetGroupActivity id q => getGroupActivity this id q
  | GetGroupAdmins id => getGroupAdmins this id
  | GetGroupMembers id q => getGroupMembers this id q
  | CreateGroup g => createGroup this g
  | UpdateGroup g => updateGroup this g
  | DeleteGroup id => deleteGroup this id
  end.

End Class.

(** *** The transport completes *)

(** What became of a promise once its callback has run: what the callback
    did, the promise's state, and an exception that left the callback (it
    runs from the event loop, after [_request] has returned, so nothing
    catches it). *)
Record outcome : Type := {
  events : list event;
  state : promise;
  uncaught : option Error.t }.

Definition deliver (p : pending) (c : completion) (now : Z) : outcome :=
  let '(log, r) :=
    match c with
    | Failed err => p (Some err) None now
    | Responded resp => p None (Some resp) now
    end in
  {| events := log;
     state := promise_of log;
     uncaught := match r with inl e => Some e | inr _ => None end |}.

(** ** Reading the facade

    The tables below restate, method by method, what the source passes
    down; the theorems compare them with what [invoke] does. *)

(** The object [_request] passes to [aws4.sign] as credentials. *)
Definition credentials_of {U : Type} (this : VinylDNS U) : Credentials.t :=
  {| Credentials.accessKeyId := Config.accessKeyId (config this);
     Credentials.secretAccessKey := Config.secretAccessKey (config this) |}.

(** The verb a facade method hands to [_getOrDelete], [_createOrUpdate]
    or (for [syncZone]) [_sync]. *)
Definition verb (op : operation) : string :=
  match op with
  | SyncZone _ | CreateZone _ | CreateRecordSet _ | CreateBatchChange _ | CreateGroup _ => "post"
  | UpdateZone _ | UpdateRecordSet _ | UpdateGroup _ => "put"
  | DeleteZone _ | DeleteRecordSet _ | DeleteGroup _ => "delete"
  | _ => "get"
  end.

(** The resource of a write operation. *)
Definition resource (op : operation) : option value :=
  match op with
  | CreateZone r | UpdateZone r | CreateRecordSet r | UpdateRecordSet r
  | CreateBatchChange r | CreateGroup r | UpdateGroup r => Some r
  | _ => None
  end.

(** The operations that send GET or DELETE, and the sync action. *)
Definition bodyless (op : operation) : bool :=
  match op with
  | SyncZone _ => true
  | _ => String.eqb (verb op) "get" || String.eqb (verb op) "delete"
  end.

(** The seven write operations. *)
Inductive write : Type :=
| WCreateZone | WUpdateZone | WCreateRecordSet | WUpdateRecordSet
| WCreateBatchChange | WCreateGroup | WUpdateGroup.

Definition write_op (w : write) (r : value) : operation :=
  match w with
  | WCreateZone => CreateZone r
  | WUpdateZone => UpdateZone r
  | WCreateRecordSet => CreateRecordSet r
  | WUpdateRecordSet => UpdateRecordSet r
  | WCreateBatchChange => CreateBatchChange r
  | WCreateGroup => CreateGroup r
  | WUpdateGroup => UpdateGroup r
  end.

(** The body a finished descriptor carries for a given caller's value. *)
Definition encoded (b : value) : string :=
  match b with
  | Some v => if truthy v then JSON.stringify v else ""
  | None => ""
  end.

(** ** JSON data up to the order of keys *)

Inductive json_equiv : json -> json -> Prop :=
| equiv_null : json_equiv JNull JNull
| equiv_bool b : json_equiv (JBool b) (JBool b)
| equiv_num n : json_equiv (JNum n) (JNum n)
| equiv_str s : json_equiv (JStr s) (JStr s)
| equiv_arr xs ys : Forall2 json_equiv xs ys -> json_equiv (JArr xs) (JArr ys)
| equiv_obj ms ms' ns :
    Permutation ms ms' ->
    Forall2 (fun a b => fst a = fst b /\ json_equiv (snd a) (snd b)) ms' ns ->
    json_equiv (JObj ms) (JObj ns).

(** [Number.MAX_SAFE_INTEGER]: up to it, in absolute value, every integer
    is a JS number and prints as its digits. *)
Definition MAX_SAFE_INTEGER : Z := 9007199254740991.

(** JSON-representable: every number is a safe integer and no object, at
    any depth, lists a key twice. *)
Fixpoint representable (v : json) : bool :=
  match v with
  | JNum n => Z.abs n <=? MAX_SAFE_INTEGER
  | JArr items => forallb representable items
  | JObj members =>
    bool_decide (NoDup (map fst members)) && forallb (fun kv => representable (snd kv)) members
  | _ => true
  end.

(** ** Notions the round-trip proof of [Module JSON] is stated with *)

Module JSONSpec.
Import JSON.

(** What may follow a value inside a text: nothing, or a separator. *)
Definition boundary (s : string) : bool :=
  match s with
  | "" => true
  | String c _ => Ascii.eqb c "," || Ascii.eqb c "]" || Ascii.eqb c "}"
  end.

Definition starts_number (c : ascii) : bool :=
  Ascii.eqb c "-" || match digit_of c with Some _ => true | None => false end.

(** The first character of a value's text: no white space, no closing bracket. *)
Definition opens_value (s : string) : Prop :=
  match s with
  | "" => False
  | String c _ => is_ws c = false /\ Ascii.eqb c "]" = false /\ Ascii.eqb c "}" = false
  end.

(** The fuel that reading a value back takes at most. *)
Fixpoint size (v : json) : nat :=
  match v with
  | JArr items => S (list_sum (map (fun x => S (size x)) items))
  | JObj members => S (list_sum (map (fun kv => S (size (snd kv))) members))
  | _ => 1
  end.

(** The parser gives a value back from its text, whatever follows it. *)
Definition reads_back (v : json) : Prop :=
  representable v = true ->
  forall fuel rest, (size v <= fuel)%nat -> boundary rest = true ->
  parse_value fuel (stringify v ++ rest) = Some (v, rest).

(** Decide the character tests on known characters, then take the branch. *)
Ltac known_tests :=
  repeat (match goal with
  | |- context [is_ws ?c] =>
    let b := eval vm_compute in (is_ws c) in
    lazymatch b with true => idtac | false => idtac end; change (is_ws c) with b
  | |- context [Ascii.eqb ?c ?c'] =>
    let b := eval vm_compute in (Ascii.eqb c c') in
    lazymatch b with true => idtac | false => idtac end; change (Ascii.eqb c c') with b
  end; cbv beta iota).

End JSONSpec.

(** ** Instances to run the model on *)

Module Sample.

Definition field (o : value) (k : string) : value :=
  match o with
  | Some (JObj members) => snd <$> find (fun kv => String.eqb (fst kv) k) members
  | _ => None
  end.

Definition segment (v : value) : string :=
  match v with
  | Some (JStr s) => s
  | Some (JNum n) => JSON.Number_toString n
  | _ => "undefined"
  end.

(** Modelled from the spec: the paths of section 4.1 (zone, record set,
    record-set change, batch change, group); the spec lists them as
    representative and says the others follow the same pattern, which is
    how the remaining ones are written here. *)
Definition route (m : Urls.method) (args : list value) : string :=
  match m, args with
  | (Urls.getZones | Urls.zonesBase), _ => "/zones"
  | Urls.zone, id :: _ => "/zones/" ++ segment id
  | Urls.getZoneChanges, id :: _ => "/zones/" ++ segment id ++ "/changes"
  | Urls.syncZone, id :: _ => "/zones/" ++ segment id ++ "/sync"
  | (Urls.getRecordSets | Urls.recordSetsBase), zoneId :: _ =>
    "/zones/" ++ segment zoneId ++ "/recordsets"
  | Urls.recordSet, d :: _ =>
    "/zones/" ++ segment (field d "zoneId") ++ "/recordsets/" ++ segment (field d "id")
  | Urls.recordSetChange, d :: _ =>
    "/zones/" ++ segment (field d "zoneId") ++ "/recordsets/" ++ segment (field d "recordSetId")
      ++ "/changes/" ++ segment (field d "changeId")
  | Urls.recordSetChanges, zoneId :: _ => "/zones/" ++ segment zoneId ++ "/recordsetchanges"
  | Urls.batchChanges, _ => "/zonechanges/batchrecordchanges"
  | Urls.batchChange, id :: _ => "/zonechanges/batchrecordchanges/" ++ segment id
  | (Urls.getGroups | Urls.groupsBase), _ => "/groups"
  | Urls.group, id :: _ => "/groups/" ++ segment id
  | Urls.getGroupActivity, id :: _ => "/groups/" ++ segment id ++ "/activity"
  | Urls.getGroupAdmins, id :: _ => "/groups/" ++ segment id ++ "/admins"
  | Urls.getGroupMembers, id :: _ => "/groups/" ++ segment id ++ "/members"
  | _, [] => "/undefined"
  end.

(** Standard percent-encoding of a value (JS's [encodeURIComponent], on
    the bytes of the string): letters, digits and [- _ . ! ~ * ' ( )]
    stay, any other byte is written [%XX]. *)
Definition unreserved (c : ascii) : bool :=
  let n := N_of_ascii c in
  (((48 <=? n) && (n <=? 57)) || ((65 <=? n) && (n <=? 90)) || ((97 <=? n) && (n <=? 122))
   || (n =? 45) || (n =? 95) || (n =? 46) || (n =? 33) || (n =? 126) || (n =? 42)
   || (n =? 39) || (n =? 40) || (n =? 41))%N.

Definition hex_upper (n : N) : ascii :=
  (if n <? 10 then ascii_of_N (48 + n) else ascii_of_N (55 + n))%N.

Fixpoint percent_encode (s : string) : string :=
  match s with
  | "" => ""
  | String c s' =>
    if unreserved c then String c (percent_encode s')
    else
      let n := N_of_ascii c in
      String "%" (String (hex_upper (n / 16)) (String (hex_upper (n mod 16)) (percent_encode s')))
  end.

(** One [key=value] pair.  The fields of the spec's QueryOptions are
    strings, integers and cursor tokens; a field that holds [null], an
    array or an object counts as absent. *)
Definition parameter (kv : string * json) : option string :=
  match snd kv with
  | JStr s => Some (fst kv ++ "=" ++ percent_encode s)
  | JNum n => Some (fst kv ++ "=" ++ JSON.Number_toString n)
  | JBool b => Some (fst kv ++ "=" ++ (if b then "true" else "false"))
  | JNull | JArr _ | JObj _ => None
  end.

(** Modelled from the spec: the query string of section 4.1.  The options
    present in [queryOpts] are appended as [key=value] pairs joined by [&]
    after a [?], in the order the object lists them, their values
    percent-encoded; with no option present nothing is appended, not even
    the [?]. *)
Definition query (queryOpts : value) : string :=
  match queryOpts with
  | Some (JObj members) =>
    match omap parameter members with
    | [] => ""
    | parameters => "?" ++ String.concat "&" parameters
    end
  | _ => ""
  end.

(** The [queryOpts] argument of the methods that take one. *)
Definition queryOpts_of (m : Urls.method) (args : list value) : value :=
  match m, args with
  | (Urls.getZones | Urls.batchChanges | Urls.getGroups), queryOpts :: _ => queryOpts
  | (Urls.getZoneChanges | Urls.getRecordSets | Urls.recordSetChanges
     | Urls.getGroupActivity | Urls.getGroupMembers), _ :: queryOpts :: _ => queryOpts
  | _, _ => None
  end.

(** Modelled from the spec: the URL Builder ([./urls], which the class
    requires and which is not among the sources).  Section 4.1 of the spec
    gives it a base endpoint, names no error condition for it and says it
    does not validate its inputs: constructing it keeps the base, whatever
    it is, and never throws.  A method answers the base followed by the
    path 4.1 lists for the resource and by the query string of its
    [queryOpts], when it takes one. *)
#[export] Instance builder : Urls.Builder (option string) := {|
  Urls.new := fun apiUrl => inr apiUrl;
  Urls.call := fun base m args =>
    default "undefined" base ++ route m args ++ query (queryOpts_of m args) |}.

Fixpoint after_scheme (s : string) : option string :=
  match s with
  | String ":" (String "/" (String "/" rest)) => Some rest
  | String _ rest => after_scheme rest
  | "" => None
  end.

Fixpoint split_host (s : string) : string * string :=
  match s with
  | "" => ("", "")
  | String c rest =>
    if Ascii.eqb c "/" then ("", s)
    else let '(h, p) := split_host rest in (String c h, p)
  end.

(** [url.parse] on URLs of the form [scheme://host/path?query] whose host
    is in lower case and whose path and query hold no character that
    [url.parse] would escape: the host is what stands before the first
    [/], the path is the rest, query string included. *)
Definition parse_url (s : string) : Url.t :=
  match after_scheme s with
  | Some rest =>
    let '(h, p) := split_host rest in
    {| Url.host := Some h; Url.path := Some (if String.eqb p "" then "/" else p) |}
  | None => {| Url.host := None; Url.path := Some s |}
  end.

Definition checksum (s : string) : Z :=
  fold_left (fun acc c => (acc * 31 + Z.of_N (N_of_ascii c)) mod 4294967296)
    (list_ascii_of_string s) 7.

(** A stand-in for [aws4.sign]: it adds the headers a signed request
    carries and leaves the rest of the descriptor alone; the signature is a
    checksum of what a real one covers, not an HMAC. *)
Definition sign (opts : Req.t) (credentials : Credentials.t) (now : Z) : Req.t :=
  let date := JSON.Number_toString now in
  let key := default "undefined" (Credentials.accessKeyId credentials) in
  let secret := default "undefined" (Credentials.secretAccessKey credentials) in
  let covered :=
    secret ++ date ++ Req.method opts ++ default "" (Req.path opts) ++ Req.body opts in
  let authorization :=
    "AWS4-HMAC-SHA256 Credential=" ++ key ++ "/" ++ date
      ++ ", SignedHeaders=content-type;host;x-amz-date, Signature="
      ++ JSON.Number_toString (checksum covered) in
  {| Req.host := Req.host opts;
     Req.uri := Req.uri opts;
     Req.method := Req.method opts;
     Req.path := Req.path opts;
     Req.headers :=
       <[ "Authorization" := authorization ]>
         (<[ "X-Amz-Date" := date ]>
            (<[ "Host" := default "" (Req.host opts) ]> (Req.headers opts)));
     Req.body := Req.body opts |}.

#[export] Instance runtime : Runtime := {| url_parse := parse_url; aws4_sign := sign |}.

Definition settings : Config.t :=
  {| Config.apiUrl := Some "https://api.example.com";
     Config.accessKeyId := Some "AKIDEXAMPLE";
     Config.secretAccessKey := Some "wJalrXUtnFEMI" |}.

Definition client : VinylDNS (option string) :=
  {| config := settings; urls := Config.apiUrl settings |}.

(** A configuration without credentials. *)
Definition anonymous : Config.t :=
  {| Config.apiUrl := Some "https://api.example.com";
     Config.accessKeyId := None;
     Config.secretAccessKey := None |}.

Definition team_a : list (string * json) :=
  [("name", JStr "team-a"); ("email", JStr "a@x.com"); ("members", JArr []); ("admins", JArr [])].

Definition not_found : Resp.t :=
  {| Resp.statusCode := 404;
     Resp.body := JSON.stringify (JObj [("message", JStr "not found")]) |}.

(** A 200 whose body is a page, not JSON. *)
Definition maintenance_page : Resp.t :=
  {| Resp.statusCode := 200; Resp.body := "<html>maintenance</html>" |}.

Definition refused : Error.t :=
  {| Error.name := "Error";
     Error.message := "connect ECONNREFUSED 127.0.0.1:9000";
     Error.own := [("code", JStr "ECONNREFUSED")] |}.

End Sample.

(** ** Notions for the further properties of the class *)

(** [undefined] or [null]: reading a property of it throws. *)
Definition nullish (v : value) : bool :=
  match v with
  | None | Some JNull => true
  | Some _ => false
  end.

(** [o.k] on a value that is not nullish: the property of an object,
    [undefined] when it has none of that name or is not an object. *)
Definition field (o : value) (k : string) : value :=
  match o with
  | Some (JObj members) => snd <$> find (fun kv => String.eqb (fst kv) k) members
  | _ => None
  end.

(** The body is absent or falsy: [opts.body ? ... : ''] takes the second branch. *)
Definition no_body (b : value) : bool :=
  match b with
  | None => true
  | Some v => negb (truthy v)
  end.

Definition is_lower (c : ascii) : bool :=
  let n := N_of_ascii c in ((97 <=? n) && (n <=? 122))%N.

Fixpoint has_lower (s : string) : bool :=
  match s with
  | "" => false
  | String c s' => is_lower c || has_lower s'
  end.

Fixpoint has_colon (s : string) : bool :=
  match s with
  | "" => false
  | String c s' => Ascii.eqb c ":" || has_colon s'
  end.

(** The descriptor an operation handed to the signer, if it got that far. *)
Definition signed_descriptor (r : list event * (Error.t + pending)) : option Req.t :=
  match fst r with
  | Sign d _ :: _ => Some d
  | _ => None
  end.

(** Was [fulfill] called, was [reject] called. *)
Definition fulfilled_in (log : list event) : bool :=
  existsb (fun ev => match ev with Fulfill _ => true | _ => false end) log.

Definition rejected_in (log : list event) : bool :=
  existsb (fun ev => match ev with Reject _ => true | _ => false end) log.

(** * Proofs *)

(** ** Induction that reaches inside arrays and objects *)

Lemma json_nested_ind (P : json -> Prop) :
  P JNull ->
  (forall b, P (JBool b)) ->
  (forall n, P (JNum n)) ->
  (forall s, P (JStr s)) ->
  (forall items, Forall P items -> P (JArr items)) ->
  (forall members, Forall (fun kv => P (snd kv)) members -> P (JObj members)) ->
  forall v, P v.
Proof.
  intros Hnull Hbool Hnum Hstr Harr Hobj.
  fix IH 1. intros [ | b | n | s | items | members ].
  - exact Hnull.
  - apply Hbool.
  - apply Hnum.
  - apply Hstr.
  - apply Harr. induction items as [ | x xs IHxs ]; constructor; [ apply IH | exact IHxs ].
  - apply Hobj. induction members as [ | [k x] ms IHms ]; constructor; [ apply IH | exact IHms ].
Qed.

(** ** Strings *)

Section StringFacts.
Implicit Types s t u : string.

Lemma append_cons c s t : String c s ++ t = String c (s ++ t).
Proof. reflexivity. Qed.

Lemma append_empty_l t : "" ++ t = t.
Proof. reflexivity. Qed.

Lemma append_assoc s t u : (s ++ t) ++ u = s ++ (t ++ u).
Proof. induction s as [ | c s IH ]; [ reflexivity | rewrite !append_cons, IH; reflexivity ]. Qed.

Lemma length_append s t : String.length (s ++ t) = (String.length s + String.length t)%nat.
Proof. induction s as [ | c s IH ]; [ reflexivity | rewrite append_cons; simpl; rewrite IH; reflexivity ]. Qed.

Lemma append_empty_r s : s ++ "" = s.
Proof. induction s as [ | c s IH ]; [ reflexivity | rewrite append_cons, IH; reflexivity ]. Qed.
End StringFacts.

(** ** [JSON.parse] reads back what [JSON.stringify] writes *)

Module JSONFacts.
Import JSON JSONSpec.

Example stringify_array :
  stringify (JArr [JNum 1; JNum (-20); JNull; JBool true; JStr "a/b"; JObj []])
  = String.concat "," ["[1"; "-20"; "null"; "true"; quote "a/b"; "{}]"].
Proof. reflexivity. Qed.

Example parse_text_with_spaces :
  parse_text " [1, -20 ,[ ], true]  " = Some (JArr [JNum 1; JNum (-20); JArr []; JBool true]).
Proof. reflexivity. Qed.

(** A key written twice: the later value, at the earlier place. *)
Example parse_text_repeated_key :
  parse_text ("{" ++ quote "a" ++ ":1," ++ quote "b" ++ ":2," ++ quote "a" ++ ":3}")
  = Some (JObj [("a", JNum 3); ("b", JNum 2)]).
Proof. reflexivity. Qed.

Example parse_text_refuses :
  map parse_text [""; "01"; "[1,]"; "nul"; "{a:1}"; "1 2"; "<html>maintenance</html>"]
  = [None; None; None; None; None; None; None].
Proof. reflexivity. Qed.

Lemma boundary_not_digit c s : boundary (String c s) = true -> digit_of c = None.
Proof.
  unfold boundary. intros H.
  destruct (Ascii.eqb_spec c ",") as [-> | ?]; [ reflexivity | ].
  destruct (Ascii.eqb_spec c "]") as [-> | ?]; [ reflexivity | ].
  destruct (Ascii.eqb_spec c "}") as [-> | ?]; [ reflexivity | discriminate ].
Qed.

Lemma boundary_ends_number s : boundary s = true -> continues_number s = false.
Proof.
  destruct s as [ | c s ]; [ reflexivity | ]. unfold boundary, continues_number. intros H.
  destruct (Ascii.eqb_spec c ",") as [-> | ?]; [ reflexivity | ].
  destruct (Ascii.eqb_spec c "]") as [-> | ?]; [ reflexivity | ].
  destruct (Ascii.eqb_spec c "}") as [-> | ?]; [ reflexivity | discriminate ].
Qed.

Lemma scan_uint_to_string d rest :
  boundary rest = true -> scan_uint (uint_to_string d ++ rest) = (d, rest).
Proof.
  intros Hb. induction d as [ | d IH | d IH | d IH | d IH | d IH | d IH | d IH | d IH | d IH | d IH ];
    cbn [uint_to_string]; rewrite ?append_cons;
    try (cbn [scan_uint]; simpl digit_of; rewrite IH; reflexivity).
  rewrite append_empty_l. destruct rest as [ | c r ]; [ reflexivity | ].
  cbn [scan_uint]. rewrite (boundary_not_digit _ _ Hb). reflexivity.
Qed.

(** [Pos.to_uint] writes no leading zero. *)
Lemma to_uint_no_zero_head p d : Pos.to_uint p <> D0 d.
Proof.
  intros E.
  assert (Hnorm : unorm (Pos.to_uint p) = Pos.to_uint p).
  { rewrite <- (Unsigned.to_of (Pos.to_uint p)), Unsigned.of_to. reflexivity. }
  rewrite E, DecimalFacts.unorm_D0 in Hnorm. unfold unorm in Hnorm.
  destruct (nzhead d) eqn:Hd; try (apply (DecimalFacts.nzhead_nonzero d d); congruence).
  apply (Unsigned.to_uint_nonzero p). rewrite E, <- Hnorm. reflexivity.
Qed.

Lemma parse_magnitude_to_string p rest :
  boundary rest = true ->
  parse_magnitude (uint_to_string (Pos.to_uint p) ++ rest) = Some (Npos p, rest).
Proof.
  intros Hb. unfold parse_magnitude. rewrite (scan_uint_to_string _ _ Hb).
  pose proof (Unsigned.to_uint_nonnil p) as Hnil.
  pose proof (to_uint_no_zero_head p) as Hz.
  rewrite (boundary_ends_number _ Hb), <- (Unsigned.of_to p).
  destruct (Pos.to_uint p); try reflexivity; [ congruence | exfalso; eapply Hz; reflexivity ].
Qed.

Lemma uint_to_string_head d :
  d <> Nil -> exists c t, uint_to_string d = String c t /\ digit_of c <> None.
Proof. destruct d; intros H; try congruence; cbn [uint_to_string]; eexists _, _; (split; [ reflexivity | discriminate ]). Qed.

Lemma digit_not_minus c : digit_of c <> None -> Ascii.eqb c "-" = false.
Proof. destruct (Ascii.eqb_spec c "-") as [-> | ?]; [ intros H; exfalso; apply H; reflexivity | reflexivity ]. Qed.

Lemma parse_number_toString z rest :
  boundary rest = true ->
  parse_number (Number_toString z ++ rest) = Some (JNum z, rest).
Proof.
  intros Hb. destruct z as [ | p | p ]; cbn [Number_toString].
  - rewrite append_cons, append_empty_l. unfold parse_number. simpl Ascii.eqb. cbv iota.
    unfold parse_magnitude. change (String "0" rest) with (uint_to_string (D0 Nil) ++ rest).
    rewrite (scan_uint_to_string _ _ Hb). cbn [leading_zero orb]. rewrite (boundary_ends_number _ Hb).
    reflexivity.
  - destruct (uint_to_string_head (Pos.to_uint p) (Unsigned.to_uint_nonnil p)) as (c & t & E & Hc).
    pose proof (parse_magnitude_to_string p rest Hb) as Hm.
    rewrite E in *. rewrite append_cons in *. unfold parse_number.
    rewrite (digit_not_minus _ Hc), Hm. reflexivity.
  - rewrite append_cons. unfold parse_number. simpl Ascii.eqb. cbv iota.
    rewrite (parse_magnitude_to_string p rest Hb). reflexivity.
Qed.

Lemma parse_chars_escape_char c t :
  parse_chars (escape_char c ++ t) = '(u, r) ← parse_chars t; Some (String c u, r).
Proof.
  destruct c as [[] [] [] [] [] [] [] []]; reflexivity.
Qed.

Lemma parse_chars_escape s rest :
  parse_chars (escape s ++ String dquote rest) = Some (s, rest).
Proof.
  induction s as [ | c s IH ]; [ reflexivity | ].
  cbn [escape]. rewrite append_assoc, parse_chars_escape_char, IH. reflexivity.
Qed.

Lemma digit_opens c : digit_of c <> None -> is_ws c = false /\ Ascii.eqb c "]" = false /\ Ascii.eqb c "}" = false.
Proof. destruct c as [[] [] [] [] [] [] [] []]; intros H; try (exfalso; apply H; reflexivity); repeat split. Qed.

Lemma stringify_opens v rest : opens_value (stringify v ++ rest).
Proof.
  destruct v as [ | [] | [ | p | p ] | s | items | members ]; try (repeat split; fail).
  cbn [stringify Number_toString].
  destruct (uint_to_string_head (Pos.to_uint p) (Unsigned.to_uint_nonnil p)) as (c & t & -> & Hc).
  rewrite append_cons. apply digit_opens, Hc.
Qed.

Lemma skip_ws_opens s : opens_value s -> skip_ws s = s.
Proof. destruct s as [ | c s ]; [ intros [] | intros (H & _); cbn [skip_ws]; rewrite H; reflexivity ]. Qed.

(** Building an object from members with distinct keys keeps them as they are. *)
Lemma define_fresh k v ms : k ∉ map fst ms -> define k v ms = (ms ++ [(k, v)])%list.
Proof.
  induction ms as [ | [k' v'] ms IH ]; intros Hk; [ reflexivity | ].
  cbn [define]. cbn in Hk. apply not_elem_of_cons in Hk as [Hne Hk].
  destruct (String.eqb_spec k k'); [ congruence | ]. rewrite (IH Hk). reflexivity.
Qed.

Lemma fold_define ms acc :
  NoDup (map fst (acc ++ ms)%list) ->
  fold_left (fun a kv => define (fst kv) (snd kv) a) ms acc = (acc ++ ms)%list.
Proof.
  revert acc. induction ms as [ | [k v] ms IH ]; intros acc Hnd; [ rewrite app_nil_r; reflexivity | ].
  cbn [fold_left fst snd]. rewrite define_fresh.
  - rewrite IH; rewrite <- app_assoc; [ reflexivity | exact Hnd ].
  - rewrite map_app in Hnd. apply NoDup_app in Hnd as (_ & Hdisj & _).
    intros Hin. apply (Hdisj _ Hin). left.
Qed.

Lemma object_of_members ms : NoDup (map fst ms) -> object_of ms = JObj ms.
Proof. intros H. unfold object_of. rewrite (fold_define ms [] H). reflexivity. Qed.

(** One round of the parser on a text whose head is known. *)
Ltac parser_step :=
  repeat (progress (cbn [mbind option_bind skip_ws parse_elements parse_members parse_value];
                    known_tests; rewrite ?append_empty_l, ?append_cons, ?append_assoc)).

Lemma parse_elements_stringify x xs :
  Forall reads_back (x :: xs) -> forallb representable (x :: xs) = true ->
  forall fuel rest, (list_sum (map (fun y => S (size y)) (x :: xs)) <= fuel)%nat ->
  parse_elements fuel (String.concat "," (map stringify (x :: xs)) ++ String "]" rest)
  = Some (x :: xs, rest).
Proof.
  revert x. induction xs as [ | y ys IH ]; intros x Hall Hrep fuel rest Hfuel.
  - apply Forall_inv in Hall. cbn in Hrep, Hfuel. rewrite andb_true_r in Hrep.
    destruct fuel as [ | fuel ]; [ lia | ]. cbn [map String.concat]. parser_step.
    rewrite (Hall Hrep fuel (String "]" rest)); [ parser_step; reflexivity | lia | reflexivity ].
  - pose proof (Forall_inv Hall) as Hx. apply Forall_inv_tail in Hall.
    cbn [forallb] in Hrep. apply andb_true_iff in Hrep as [Hrx Hrep].
    cbn [map list_sum fold_right] in Hfuel. destruct fuel as [ | fuel ]; [ lia | ].
    change (String.concat "," (map stringify (x :: y :: ys)))
      with (stringify x ++ "," ++ String.concat "," (map stringify (y :: ys))).
    rewrite !append_assoc, append_cons, append_empty_l. parser_step.
    rewrite (Hx Hrx fuel (String "," _)); [ | lia | reflexivity ].
    parser_step. rewrite (IH y Hall Hrep fuel rest); [ reflexivity | cbn [map list_sum fold_right]; lia ].
Qed.

Lemma parse_members_stringify kv ms :
  Forall (fun m => reads_back (snd m)) (kv :: ms) ->
  forallb (fun m => representable (snd m)) (kv :: ms) = true ->
  forall fuel rest, (list_sum (map (fun m => S (size (snd m))) (kv :: ms)) <= fuel)%nat ->
  parse_members fuel (String.concat "," (map (member_text stringify) (kv :: ms)) ++ String "}" rest)
  = Some (kv :: ms, rest).
Proof.
  revert kv. induction ms as [ | m ms IH ]; intros [k x] Hall Hrep fuel rest Hfuel.
  - apply Forall_inv in Hall. cbn in Hall, Hrep, Hfuel. rewrite andb_true_r in Hrep.
    destruct fuel as [ | fuel ]; [ lia | ].
    cbn [map String.concat]. unfold member_text, quote. cbn [fst snd].
    rewrite !append_cons, !append_assoc, !append_cons, append_empty_l.
    parser_step. rewrite parse_chars_escape. parser_step.
    rewrite (Hall Hrep fuel (String "}" rest)); [ parser_step; reflexivity | lia | reflexivity ].
  - pose proof (Forall_inv Hall) as Hx. apply Forall_inv_tail in Hall.
    cbn [forallb] in Hrep. apply andb_true_iff in Hrep as [Hrx Hrep].
    cbn [map list_sum fold_right snd] in Hfuel, Hx, Hrx. destruct fuel as [ | fuel ]; [ lia | ].
    change (String.concat "," (map (member_text stringify) ((k, x) :: m :: ms)))
      with (member_text stringify (k, x) ++ "," ++ String.concat "," (map (member_text stringify) (m :: ms))).
    unfold member_text at 1, quote. cbn [fst snd].
    rewrite !append_cons, !append_assoc, !append_cons, !append_empty_l.
    parser_step. rewrite parse_chars_escape. parser_step.
    rewrite (Hx Hrx fuel (String "," _)); [ | lia | reflexivity ].
    parser_step. rewrite (IH m Hall Hrep fuel rest); [ reflexivity | cbn [map list_sum fold_right]; lia ].
Qed.

(** The parser reads a value back from its text, inside any context. *)
Lemma parse_value_stringify v : reads_back v.
Proof.
  induction v as [ | b | n | s | items IH | members IH ] using json_nested_ind;
    intros Hrep fuel rest Hfuel Hb; (destruct fuel as [ | fuel ]; [ cbn in Hfuel; lia | ]).
  - reflexivity.
  - destruct b; reflexivity.
  - cbn [parse_value]. rewrite (skip_ws_opens _ (stringify_opens (JNum n) rest)).
    pose proof (stringify_opens (JNum n) rest) as Ho.
    pose proof (parse_number_toString n rest Hb) as Hn.
    cbn [stringify] in *. destruct (Number_toString n ++ rest) as [ | c r ] eqn:E; [ destruct Ho | ].
    destruct Ho as (_ & Hc1 & Hc2). rewrite <- Hn. clear Hn.
    assert (Hstart : starts_number c = true).
    { destruct n as [ | p | p ]; cbn [Number_toString] in E.
      - injection E as <- _. reflexivity.
      - destruct (uint_to_string_head (Pos.to_uint p) (Unsigned.to_uint_nonnil p)) as (c' & t & Et & Hc).
        rewrite Et, append_cons in E. injection E as <- _. unfold starts_number.
        destruct (digit_of c'); [ apply orb_true_r | congruence ].
      - rewrite append_cons in E. injection E as <- _. reflexivity. }
    clear E. revert Hstart. destruct c as [[] [] [] [] [] [] [] []]; try discriminate; reflexivity.
  - cbn [stringify]. unfold quote. parser_step. rewrite parse_chars_escape. reflexivity.
  - cbn [stringify]. parser_step. destruct items as [ | x xs ].
    + cbn [map String.concat]. parser_step. reflexivity.
    + pose proof (stringify_opens x (String.concat "," (map stringify xs) ++ String "]" rest)) as Ho.
      cbn [representable] in Hrep. cbn [size] in Hfuel.
      pose proof (parse_elements_stringify x xs IH Hrep fuel rest ltac:(lia)) as He.
      assert (Et : String.concat "," (map stringify (x :: xs)) ++ String "]" rest
                   = (match xs with [] => stringify x ++ String "]" rest
                      | _ => stringify x ++ String "," (String.concat "," (map stringify xs) ++ String "]" rest) end)).
      { destruct xs; cbn [map String.concat]; rewrite ?append_assoc, ?append_cons, ?append_empty_l; reflexivity. }
      rewrite Et in *. clear Et.
      assert (Ho' : opens_value (match xs with [] => stringify x ++ String "]" rest
                      | _ => stringify x ++ String "," (String.concat "," (map stringify xs) ++ String "]" rest) end)).
      { destruct xs; apply stringify_opens. }
      rewrite (skip_ws_opens _ Ho').
      destruct (match xs with [] => _ | _ => _ end) as [ | c r ]; [ destruct Ho' | ].
      destruct Ho' as (_ & -> & _). rewrite He. reflexivity.
  - cbn [stringify]. parser_step. destruct members as [ | [k x] ms ].
    + cbn [map String.concat]. parser_step. reflexivity.
    + cbn [representable] in Hrep. apply andb_true_iff in Hrep as [Hnd Hrep].
      apply bool_decide_eq_true in Hnd. cbn [size] in Hfuel.
      pose proof (parse_members_stringify (k, x) ms IH Hrep fuel rest ltac:(lia)) as He.
      assert (Et : exists t, String.concat "," (map (member_text stringify) ((k, x) :: ms)) ++ String "}" rest
                   = String dquote t).
      { destruct ms; cbn [map String.concat]; unfold member_text at 1, quote;
          rewrite ?append_assoc, ?append_cons; eexists; reflexivity. }
      destruct Et as [t Et]. rewrite Et in *. parser_step. rewrite He.
      cbn [mbind option_bind]. rewrite (object_of_members _ Hnd). reflexivity.
Qed.

(** The text of a value is long enough to be the fuel for reading it. *)
Lemma concat_length {A} (cost : A -> nat) (text : A -> string) (l : list A) :
  Forall (fun a => (cost a <= String.length (text a))%nat) l ->
  (list_sum (map (fun a => S (cost a)) l) <= String.length (String.concat "," (map text l)) + 1)%nat.
Proof.
  induction 1 as [ | a l Ha Hl IH ]; [ cbn; lia | ].
  destruct l as [ | b l ].
  - cbn. lia.
  - change (String.concat "," (map text (a :: b :: l)))
      with (text a ++ "," ++ String.concat "," (map text (b :: l))).
    rewrite !length_append. cbn [map list_sum fold_right String.length] in *. lia.
Qed.

Lemma size_le_length v : (size v <= String.length (stringify v))%nat.
Proof.
  induction v as [ | b | n | s | items IH | members IH ] using json_nested_ind.
  - cbn. lia.
  - destruct b; cbn; lia.
  - cbn [size stringify]. destruct n as [ | p | p ]; cbn [Number_toString String.length]; try lia.
    destruct (uint_to_string_head (Pos.to_uint p) (Unsigned.to_uint_nonnil p)) as (c & t & -> & _).
    cbn. lia.
  - cbn. lia.
  - cbn [size stringify]. pose proof (concat_length size stringify items IH).
    rewrite append_cons, append_empty_l. cbn [String.length]. rewrite length_append. cbn [String.length]. lia.
  - cbn [size stringify].
    assert (IH' : Forall (fun kv => (size (snd kv) <= String.length (member_text stringify kv))%nat) members).
    { eapply Forall_impl; [ exact IH | ]. intros [k x] Hx. unfold member_text. rewrite !length_append.
      cbn [snd] in *. lia. }
    pose proof (concat_length (fun kv => size (snd kv)) (member_text stringify) members IH').
    rewrite append_cons, append_empty_l. cbn [String.length]. rewrite length_append. cbn [String.length]. lia.
Qed.

(** [JSON.parse (JSON.stringify v)] is [v] again. *)
Lemma parse_text_stringify v : representable v = true -> parse_text (stringify v) = Some v.
Proof.
  intros Hrep. unfold parse_text.
  pose proof (parse_value_stringify v Hrep (S (String.length (stringify v))) "") as H.
  rewrite append_empty_r in H. rewrite H; [ reflexivity | | reflexivity ].
  pose proof (size_le_length v). lia.
Qed.
End JSONFacts.

(** ** JSON data, strings *)

Lemma json_equiv_refl v : json_equiv v v.
Proof.
  induction v as [ | b | n | s | items IH | members IH ] using json_nested_ind; try constructor.
  - induction IH; constructor; assumption.
  - apply equiv_obj with (ms' := members); [ reflexivity | ].
    induction IH; constructor; [ split; [ reflexivity | assumption ] | assumption ].
Qed.

Lemma prefix_append part rest : String.prefix part (part ++ rest) = true.
Proof.
  induction part as [ | c part IH ]; [ destruct rest; reflexivity | ].
  rewrite append_cons. cbn [String.prefix]. destruct (ascii_dec c c); [ exact IH | congruence ].
Qed.

Lemma includes_append before part rest : includes part (before ++ part ++ rest) = true.
Proof.
  induction before as [ | c before IH ].
  - rewrite append_empty_l. destruct (part ++ rest) eqn:E; cbn [includes]; rewrite <- E, prefix_append; reflexivity.
  - rewrite append_cons. cbn [includes]. rewrite IH. apply orb_true_r.
Qed.

(** ** What a facade method does before it returns *)

Section ClassFacts.
Context {U : Type} {builder : Urls.Builder U} {runtime : Runtime}.
Implicit Types (this : VinylDNS U) (op : operation).

Lemma _request_run this opts now :
  _request this opts now
  = ([Sign opts (credentials_of this); Send (aws4_sign opts (credentials_of this) now)], inr callback).
Proof. reflexivity. Qed.

(** A facade method either throws before anything is built (reading a
    property of a resource that is [undefined] or [null]), or hands one
    finished descriptor to [_request]. *)
Lemma invoke_cases this op now :
  (exists url,
      invoke this op now
      = _request this (_requestOptions {| Opts.url := url; Opts.method := Some (verb op);
                                           Opts.body := default None (resource op) |}) now)
  \/ (exists e, invoke this op now = ([], inl e) /\ Error.name e = "TypeError"
                /\ (resource op = Some None \/ resource op = Some (Some JNull))).
Proof.
  destruct op as [ q | id | id q | id | z | z | id | z q | d | r | r | d | d | z q | q | id | b
                 | q | id | id q | id | id q | g | g | id ];
    try (left; eexists; reflexivity).
  - destruct z as [ [ | | | | | ] | ]; try (left; eexists; reflexivity);
      right; eexists; (split; [ reflexivity | split; [ reflexivity | auto ] ]).
  - destruct r as [ [ | | | | | ] | ]; try (left; eexists; reflexivity);
      right; eexists; (split; [ reflexivity | split; [ reflexivity | auto ] ]).
  - destruct g as [ [ | | | | | ] | ]; try (left; eexists; reflexivity);
      right; eexists; (split; [ reflexivity | split; [ reflexivity | auto ] ]).
Qed.

Lemma invoke_pending this op now log p :
  invoke this op now = (log, inr p) -> p = callback.
Proof.
  intros H. destruct (invoke_cases this op now) as [ [url E] | (e & E & _) ]; rewrite E in H.
  - rewrite _request_run in H. congruence.
  - discriminate.
Qed.

End ClassFacts.

(** ** What the callback does when the transport completes *)

Section Completion.
Context {U : Type} {builder : Urls.Builder U} {runtime : Runtime}.
Implicit Types (this : VinylDNS U) (op : operation).

Lemma callback_transport_error err later :
  deliver callback (Failed err) later
  = {| events := [Reject err]; state := Rejected err; uncaught := None |}.
Proof. reflexivity. Qed.

Lemma callback_remote_rejection resp later :
  400 <= Resp.statusCode resp ->
  deliver callback (Responded resp) later
  = {| events := [ReadStatus (Resp.statusCode resp);
                  Reject (new_Error (JSON.Number_toString (Resp.statusCode resp) ++ ": " ++ Resp.body resp))];
       state := Rejected (new_Error (JSON.Number_toString (Resp.statusCode resp) ++ ": " ++ Resp.body resp));
       uncaught := None |}.
Proof.
  intros Hge. unfold deliver, callback, bind, emit, reject.
  apply Z.leb_le in Hge. rewrite Hge. reflexivity.
Qed.

Lemma callback_decoded resp v later :
  Resp.statusCode resp < 400 -> JSON.parse (Resp.body resp) = inr v ->
  deliver callback (Responded resp) later
  = {| events := [ReadStatus (Resp.statusCode resp); Parse (Resp.body resp); Fulfill v];
       state := Fulfilled v; uncaught := None |}.
Proof.
  intros Hlt Hv. unfold deliver, callback, bind, emit, fulfill.
  apply Z.leb_gt in Hlt. rewrite Hlt, Hv. reflexivity.
Qed.

Lemma callback_decode_failure resp e later :
  Resp.statusCode resp < 400 -> JSON.parse (Resp.body resp) = inl e ->
  deliver callback (Responded resp) later
  = {| events := [ReadStatus (Resp.statusCode resp); Parse (Resp.body resp)];
       state := Pending; uncaught := Some e |}.
Proof.
  intros Hlt He. unfold deliver, callback, bind, emit, throw.
  apply Z.leb_gt in Hlt. rewrite Hlt, He. reflexivity.
Qed.

(** Whatever the transport hands over, the callback calls [fulfill] or
    [reject] at most once. *)
Lemma callback_settles_at_most_once c later :
  (settlements (events (deliver callback c later)) <= 1)%nat.
Proof.
  destruct c as [ err | resp ]; [ rewrite callback_transport_error; cbn; lia | ].
  destruct (Z_lt_le_dec (Resp.statusCode resp) 400) as [ Hlt | Hge ].
  - destruct (JSON.parse (Resp.body resp)) as [ e | v ] eqn:E.
    + rewrite (callback_decode_failure _ _ _ Hlt E). cbn. lia.
    + rewrite (callback_decoded _ _ _ Hlt E). cbn. lia.
  - rewrite (callback_remote_rejection _ _ Hge). cbn. lia.
Qed.

(** C1: a response with status 400 or more, received by any facade
    operation, rejects the operation's promise with an [Error] whose
    message is the status code, a colon and the raw body; so the message
    contains both. *)
Theorem remote_rejection_rejects this op now log p resp later :
  invoke this op now = (log, inr p) ->
  400 <= Resp.statusCode resp ->
  let message := JSON.Number_toString (Resp.statusCode resp) ++ ": " ++ Resp.body resp in
  deliver p (Responded resp) later
  = {| events := [ReadStatus (Resp.statusCode resp); Reject (new_Error message)];
       state := Rejected (new_Error message);
       uncaught := None |}
  /\ includes (JSON.Number_toString (Resp.statusCode resp)) message = true
  /\ includes (Resp.body resp) message = true.
Proof.
  intros Hinv Hge message. rewrite (invoke_pending _ _ _ _ _ Hinv).
  split; [ apply callback_remote_rejection, Hge | split ].
  - apply (includes_append "").
  - unfold message. rewrite <- (append_empty_r (Resp.body resp)) at 2.
    rewrite <- append_assoc. apply includes_append.
Qed.

(** C2: when the transport completes with an error, the promise of any
    facade operation is rejected with that very error; the callback does
    nothing else: it reads no status code and parses nothing. *)
Theorem transport_error_rejects_verbatim this op now log p err later :
  invoke this op now = (log, inr p) ->
  deliver p (Failed err) later
  = {| events := [Reject err]; state := Rejected err; uncaught := None |}.
Proof.
  intros Hinv. rewrite (invoke_pending _ _ _ _ _ Hinv). apply callback_transport_error.
Qed.

End Completion.

(** C1 on the spec's scenario: [getZone] answered 404 with a body saying
    [not found]. *)
Lemma remote_rejection_not_found :
  exists log p e,
    @invoke _ Sample.builder Sample.runtime Sample.client (GetZone (Some (JStr "abc123"))) 1546300800000
    = (log, inr p)
    /\ state (deliver p (Responded Sample.not_found) 1546300800250) = Rejected e
    /\ includes "404" (Error.message e) = true
    /\ includes "not found" (Error.message e) = true.
Proof.
  destruct (@invoke _ Sample.builder Sample.runtime Sample.client (GetZone (Some (JStr "abc123")))
              1546300800000) as [log [e | p]] eqn:E; [ discriminate E | ].
  destruct (@remote_rejection_rejects _ Sample.builder Sample.runtime Sample.client _ _ log p
              Sample.not_found 1546300800250 E ltac:(cbn; lia)) as (Hd & Hcode & Hbody).
  exists log, p, (new_Error (JSON.Number_toString 404 ++ ": " ++ Resp.body Sample.not_found)).
  split; [ reflexivity | ]. split; [ rewrite Hd; reflexivity | ].
  split; [ exact Hcode | reflexivity ].
Defined.

(** C2 on a refused connection, for [deleteZone]. *)
Lemma transport_error_refused :
  exists log p,
    @invoke _ Sample.builder Sample.runtime Sample.client (DeleteZone (Some (JStr "abc123"))) 1546300800000
    = (log, inr p)
    /\ deliver p (Failed Sample.refused) 1546300800250
       = {| events := [Reject Sample.refused]; state := Rejected Sample.refused; uncaught := None |}.
Proof.
  destruct (@invoke _ Sample.builder Sample.runtime Sample.client (DeleteZone (Some (JStr "abc123")))
              1546300800000) as [log [e | p]] eqn:E; [ discriminate E | ].
  exists log, p. split; [ reflexivity | ].
  exact (@transport_error_rejects_verbatim _ Sample.builder Sample.runtime Sample.client _ _ log p
           Sample.refused 1546300800250 E).
Defined.

(** ** Signing and dispatch *)

Section Dispatch.
Context {U : Type} {builder : Urls.Builder U} {runtime : Runtime}.
Implicit Types (this : VinylDNS U) (op : operation).

(** C3, where the code departs from it: a response below 400 whose body
    is not JSON -- here a maintenance page answered to [getZone]
    -- makes [JSON.parse] throw inside the callback.  Neither [fulfill] nor
    [reject] has been called by then and none is called after: the
    promise stays pending and the [SyntaxError] leaves the callback
    uncaught. *)
Theorem parse_failure_escapes_the_promise this id now later :
  exists d signed,
    invoke this (GetZone id) now = ([Sign d (credentials_of this); Send signed], inr callback)
    /\ deliver callback
         (Responded Sample.maintenance_page) later
       = {| events := [ReadStatus 200; Parse "<html>maintenance</html>"];
            state := Pending;
            uncaught := Some (new_SyntaxError "Unexpected token in JSON") |}.
Proof.
  eexists _, _. split; [ reflexivity | ].
  apply callback_decode_failure; [ cbn; lia | reflexivity ].
Qed.

(** C8, where the code departs from it: on the same completion as for C3
    the callback calls neither [fulfill] nor [reject], so the promise is
    never settled; on every other completion it is settled exactly once. *)
Theorem parse_failure_settles_nothing later :
  let o := deliver callback (Responded Sample.maintenance_page) later in
  settlements (events o) = 0%nat /\ state o = Pending
  /\ (forall err, settlements (events (deliver callback (Failed err) later)) = 1%nat)
  /\ (forall resp, 400 <= Resp.statusCode resp ->
        settlements (events (deliver callback (Responded resp) later)) = 1%nat)
  /\ (forall resp v, Resp.statusCode resp < 400 -> JSON.parse (Resp.body resp) = inr v ->
        settlements (events (deliver callback (Responded resp) later)) = 1%nat).
Proof.
  intros o. split; [ reflexivity | ]. split; [ reflexivity | ]. split; [ | split ].
  - intros err. reflexivity.
  - intros resp Hge. rewrite (callback_remote_rejection _ _ Hge). reflexivity.
  - intros resp v Hlt Hv. rewrite (callback_decoded _ _ _ Hlt Hv). reflexivity.
Qed.

(** C7: an operation that gets as far as a request signs once and sends
    once, in that order.  What goes to the signer is the finished
    descriptor -- upper-case method, content type, and the body already
    JSON-encoded --, and what goes to the transport is what the signer
    returned.  An operation that throws instead has signed and sent
    nothing. *)
Theorem signed_once_then_sent this op now :
  match invoke this op now with
  | (log, inr _) =>
    exists d,
      log = [Sign d (credentials_of this); Send (aws4_sign d (credentials_of this) now)]
      /\ Req.body d = encoded (default None (resource op))
      /\ Req.method d = toUpperCase (verb op)
      /\ Req.headers d = {[ "Content-Type" := "application/json" ]}
  | (log, inl _) => log = []
  end.
Proof.
  destruct (invoke_cases this op now) as [ [url E] | (e & E & _) ]; rewrite E; [ | reflexivity ].
  rewrite _request_run. eexists. split; [ reflexivity | ].
  split; [ reflexivity | ]. split; [ | reflexivity ].
  destruct op; reflexivity.
Qed.

(** C10: the descriptor [_requestOptions] builds always carries
    [Content-Type: application/json], body or no body; its method is
    ['GET'] when none is given, and the upper-case form of the one given
    otherwise.  For a facade operation that is the upper-case form of the
    verb the facade passes down, one of GET, POST, PUT and DELETE. *)
Theorem descriptor_content_type_and_method :
  (forall opts,
      Req.headers (_requestOptions opts) !! "Content-Type" = Some "application/json"
      /\ Req.method (_requestOptions opts)
         = match Opts.method opts with
           | None => "GET"
           | Some m => if String.eqb m "" then "GET" else toUpperCase m
           end)
  /\ (forall this op now,
        match invoke this op now with
        | (log, inr _) =>
          exists d signed,
            log = [Sign d (credentials_of this); Send signed]
            /\ Req.headers d !! "Content-Type" = Some "application/json"
            /\ Req.method d = toUpperCase (verb op)
            /\ In (Req.method d) ["GET"; "POST"; "PUT"; "DELETE"]
        | (log, inl _) => log = []
        end).
Proof.
  split.
  - intros opts. split; [ reflexivity | ]. reflexivity.
  - intros this op now.
    destruct (invoke_cases this op now) as [ [url E] | (e & E & _) ]; rewrite E; [ | reflexivity ].
    rewrite _request_run. eexists _, _. split; [ reflexivity | ].
    split; [ reflexivity | ].
    assert (Hm : Req.method (_requestOptions {| Opts.url := url; Opts.method := Some (verb op);
                                                 Opts.body := default None (resource op) |})
                 = toUpperCase (verb op)) by (destruct op; reflexivity).
    split; [ exact Hm | ]. rewrite Hm. destruct op; cbn; tauto.
Qed.

Section BodyKept.
(** [aws4.sign] adds headers; the body it was given is the body it returns. *)
Hypothesis sign_keeps_body :
  forall d credentials now, Req.body (aws4_sign d credentials now) = Req.body d.

(** C6: an operation that sends GET or DELETE, and the sync action (a
    POST), signs a descriptor whose body is the empty string and sends one
    whose body is the empty string. *)
Theorem bodyless_operations_send_empty_body this op now :
  bodyless op = true ->
  exists d signed,
    invoke this op now = ([Sign d (credentials_of this); Send signed], inr callback)
    /\ Req.body d = "" /\ Req.body signed = "".
Proof.
  intros Hb.
  assert (Hr : resource op = None) by (destruct op; first [ reflexivity | discriminate Hb ]).
  destruct (invoke_cases this op now) as [ [url E] | (e & E & _ & [Hn | Hn]) ];
    [ | congruence | congruence ].
  rewrite E, _request_run. eexists _, _. split; [ reflexivity | ].
  rewrite sign_keeps_body, Hr. split; reflexivity.
Qed.

(** C5: for a JSON-representable resource object handed to a write
    operation, [JSON.parse] of the body that reaches the transport gives
    the resource back: the same keys with the same values (and, as it
    happens, in the same order). *)
Theorem write_body_round_trip this (w : write) members now :
  representable (JObj members) = true ->
  exists d signed decoded,
    invoke this (write_op w (Some (JObj members))) now
    = ([Sign d (credentials_of this); Send signed], inr callback)
    /\ JSON.parse (Req.body signed) = inr decoded
    /\ json_equiv decoded (JObj members)
    /\ decoded = JObj members.
Proof.
  intros Hrep.
  destruct (invoke_cases this (write_op w (Some (JObj members))) now) as [ [url E] | (e & E & _ & Hr) ].
  - rewrite E, _request_run. eexists _, _, (JObj members). split; [ reflexivity | ].
    rewrite sign_keeps_body.
    assert (Hbody : Req.body (_requestOptions
               {| Opts.url := url; Opts.method := Some (verb (write_op w (Some (JObj members))));
                  Opts.body := default None (resource (write_op w (Some (JObj members)))) |})
             = JSON.stringify (JObj members)) by (destruct w; reflexivity).
    rewrite Hbody. unfold JSON.parse. rewrite (JSONFacts.parse_text_stringify _ Hrep).
    split; [ reflexivity | ]. split; [ apply json_equiv_refl | reflexivity ].
  - destruct w; destruct Hr as [Hr | Hr]; discriminate Hr.
Qed.

End BodyKept.

(** The round trip of C5 needs the resource to be truthy, as every object
    is: a resource that is [null], [0], [false] or the empty string is sent
    as the empty body, which is not its JSON text. *)
Lemma falsy_resource_is_sent_with_empty_body this r now :
  truthy r = false ->
  exists d signed,
    invoke this (CreateZone (Some r)) now = ([Sign d (credentials_of this); Send signed], inr callback)
    /\ Req.body d = "" /\ JSON.parse "" = inl (new_SyntaxError "Unexpected token in JSON").
Proof.
  intros Hr. eexists _, _. split; [ reflexivity | ]. split; [ | reflexivity ].
  cbn. rewrite Hr. reflexivity.
Qed.

(** C4, as the code has it: the constructor reads [config.apiUrl] and
    nothing else.  Whether it returns depends on [new Urls(apiUrl)] alone;
    two configurations with the same [apiUrl] are both accepted or both
    refused, whatever their credentials.  An accepted configuration is
    kept as given, and its [accessKeyId] and [secretAccessKey] -- present
    or [undefined] -- are first used when a request is signed. *)
Theorem construction_checks_no_credentials (cfg : Config.t) :
  (forall cfg' : Config.t,
      Config.apiUrl cfg' = Config.apiUrl cfg ->
      match constructor cfg, constructor cfg' with
      | inr this, inr this' => config this = cfg /\ config this' = cfg' /\ urls this = urls this'
      | inl e, inl e' => e = e'
      | _, _ => False
      end)
  /\ (forall this, constructor cfg = inr this ->
        forall opts now,
          exists signed,
            _request this opts now
            = ([Sign opts {| Credentials.accessKeyId := Config.accessKeyId cfg;
                             Credentials.secretAccessKey := Config.secretAccessKey cfg |};
                Send signed], inr callback)).
Proof.
  split.
  - intros cfg' Hurl. unfold constructor. rewrite Hurl.
    destruct (Urls.new (Config.apiUrl cfg)); [ reflexivity | repeat split ].
  - intros this Hc opts now. unfold constructor in Hc.
    destruct (Urls.new (Config.apiUrl cfg)); [ discriminate | ].
    injection Hc as <-. eexists. reflexivity.
Qed.

End Dispatch.

(** ** The theorems at work on [Module Sample] *)

(** The stand-in signer returns the body it was given. *)
Lemma sample_sign_keeps_body d credentials now :
  Req.body (@aws4_sign Sample.runtime d credentials now) = Req.body d.
Proof. reflexivity. Qed.

(** C6 on [syncZone]: a POST that is signed and sent with an empty body. *)
Lemma sync_zone_sends_empty_body :
  bodyless (SyncZone (Some (JStr "abc123"))) = true
  /\ exists d signed,
       @invoke _ Sample.builder Sample.runtime Sample.client (SyncZone (Some (JStr "abc123"))) 1546300800000
       = ([Sign d (credentials_of Sample.client); Send signed], inr callback)
       /\ Req.method d = "POST" /\ Req.uri d = "https://api.example.com/zones/abc123/sync"
       /\ Req.body d = "" /\ Req.body signed = "".
Proof.
  split; [ reflexivity | ].
  destruct (@bodyless_operations_send_empty_body _ Sample.builder Sample.runtime
              sample_sign_keeps_body Sample.client (SyncZone (Some (JStr "abc123"))) 1546300800000 eq_refl)
    as (d & signed & E & Hd & Hs).
  exists d, signed. split; [ exact E | ].
  injection E as <- _. repeat split; first [ reflexivity | assumption ].
Defined.

(** C5 on the spec's [createGroup] scenario. *)
Lemma create_group_body_round_trip :
  representable (JObj Sample.team_a) = true
  /\ exists d signed decoded,
       @invoke _ Sample.builder Sample.runtime Sample.client (CreateGroup (Some (JObj Sample.team_a))) 1546300800000
       = ([Sign d (credentials_of Sample.client); Send signed], inr callback)
       /\ JSON.parse (Req.body signed) = inr decoded
       /\ json_equiv decoded (JObj Sample.team_a)
       /\ decoded = JObj Sample.team_a.
Proof.
  split; [ vm_compute; reflexivity | ].
  exact (@write_body_round_trip _ Sample.builder Sample.runtime sample_sign_keeps_body
           Sample.client WCreateGroup Sample.team_a 1546300800000 eq_refl).
Defined.

(** C4, as the spec has it, fails: a configuration with neither
    [accessKeyId] nor [secretAccessKey] is accepted.  The client is built,
    holds the configuration with both still [undefined], and a request made
    with it goes to the signer with both [undefined]. *)
Lemma construction_accepts_missing_credentials :
  exists this d signed,
    @constructor _ Sample.builder Sample.anonymous = inr this
    /\ config this = Sample.anonymous
    /\ @invoke _ Sample.builder Sample.runtime this (GetZones None) 1546300800000
       = ([Sign d {| Credentials.accessKeyId := None; Credentials.secretAccessKey := None |};
           Send signed], inr callback).
Proof.
  exists {| config := Sample.anonymous; urls := Some "https://api.example.com" |}.
  eexists _, _. split; [ reflexivity | ]. split; reflexivity.
Qed.

(** The spec's [getZones] scenario, on the sample client: the query
    string holds the two options given and nothing else, and is part of
    the path that is signed. *)
Example get_zones_scenario :
  exists d signed p,
    @invoke _ Sample.builder Sample.runtime Sample.client
      (GetZones (Some (JObj [("nameFilter", JStr "corp"); ("maxItems", JNum 50)]))) 1546300800000
    = ([Sign d (credentials_of Sample.client); Send signed], inr p)
    /\ Req.method d = "GET"
    /\ Req.uri d = "https://api.example.com/zones?nameFilter=corp&maxItems=50"
    /\ Req.path d = Some "/zones?nameFilter=corp&maxItems=50"
    /\ Req.uri <$> signed_descriptor
                     (@invoke _ Sample.builder Sample.runtime Sample.client (GetZones (Some (JObj [])))
                        1546300800000)
       = Some "https://api.example.com/zones".
Proof.
  eexists _, _, _. split; [ reflexivity | ]. repeat split; vm_compute; reflexivity.
Qed.

(** The spec's [getZone] scenario, on the sample client: a GET of
    [/zones/abc123] with an empty body, and a 200 response that fulfils the
    promise with the object the body denotes. *)
Example get_zone_scenario :
  exists d signed p,
    @invoke _ Sample.builder Sample.runtime Sample.client (GetZone (Some (JStr "abc123"))) 1546300800000
    = ([Sign d (credentials_of Sample.client); Send signed], inr p)
    /\ Req.method d = "GET" /\ Req.uri d = "https://api.example.com/zones/abc123" /\ Req.body d = ""
    /\ state (deliver p (Responded {| Resp.statusCode := 200;
                                       Resp.body := JSON.stringify
                                         (JObj [("id", JStr "abc123"); ("name", JStr "example.")]) |})
                 1546300800250)
       = Fulfilled (JObj [("id", JStr "abc123"); ("name", JStr "example.")]).
Proof.
  eexists _, _, _. split; [ reflexivity | ]. repeat split; vm_compute; reflexivity.
Qed.

(** * Further properties of the class *)

(** ** The callback *)

Section CallbackFacts.
Context {U : Type} {builder : Urls.Builder U} {runtime : Runtime}.
Implicit Types (this : VinylDNS U) (op : operation).


(** X2: a response below 400 never rejects the promise, whatever its
    body.  Either [fulfill] is called and nothing is thrown, or
    [JSON.parse] throws its [SyntaxError] out of the callback and the
    promise is left pending: no third outcome, and no call of [reject]. *)
Theorem below_400_never_rejects this op now log p resp later :
  invoke this op now = (log, inr p) ->
  Resp.statusCode resp < 400 ->
  let o := deliver p (Responded resp) later in
  rejected_in (events o) = false
  /\ (forall e, state o <> Rejected e)
  /\ ((exists v, state o = Fulfilled v /\ fulfilled_in (events o) = true /\ uncaught o = None)
      \/ (exists e, state o = Pending /\ fulfilled_in (events o) = false
                    /\ uncaught o = Some e /\ Error.name e = "SyntaxError")).
Proof.
  intros Hinv Hlt o. unfold o. rewrite (invoke_pending _ _ _ _ _ Hinv).
  destruct (JSON.parse (Resp.body resp)) as [ e | v ] eqn:E.
  - rewrite (callback_decode_failure _ _ _ Hlt E). cbn [events state uncaught].
    split; [ reflexivity | ]. split; [ discriminate | ].
    right. exists e. repeat split.
    unfold JSON.parse in E. destruct (JSON.parse_text (Resp.body resp)); [ discriminate E | ].
    injection E as <-. reflexivity.
  - rewrite (callback_decoded _ _ _ Hlt E). cbn [events state uncaught].
    split; [ reflexivity | ]. split; [ discriminate | ].
    left. exists v. repeat split.
Qed.

(** X3: whatever the transport hands over, the callback of any facade
    operation calls [fulfill] or [reject] at most once and never both, and
    the promise is settled exactly when one of them was called. *)
Theorem settles_at_most_once this op now log p c later :
  invoke this op now = (log, inr p) ->
  let o := deliver p c later in
  (settlements (events o) <= 1)%nat
  /\ fulfilled_in (events o) && rejected_in (events o) = false
  /\ (state o = Pending <-> settlements (events o) = 0%nat).
Proof.
  intros Hinv o. unfold o. rewrite (invoke_pending _ _ _ _ _ Hinv).
  destruct c as [ err | resp ].
  - rewrite callback_transport_error. cbn. repeat split; try lia; discriminate.
  - destruct (Z_lt_le_dec (Resp.statusCode resp) 400) as [ Hlt | Hge ].
    + destruct (JSON.parse (Resp.body resp)) as [ e | v ] eqn:E.
      * rewrite (callback_decode_failure _ _ _ Hlt E). cbn. repeat split; lia.
      * rewrite (callback_decoded _ _ _ Hlt E). cbn. repeat split; try lia; discriminate.
    + rewrite (callback_remote_rejection _ _ Hge). cbn. repeat split; try lia; discriminate.
Qed.

End CallbackFacts.


(** X2 on a 204 with no body, answered to [deleteZone]: [reject] is not
    called; the empty text is not JSON, so the promise is left pending. *)
Lemma below_400_never_rejects_no_content :
  let resp := {| Resp.statusCode := 204; Resp.body := "" |} in
  Resp.statusCode resp < 400
  /\ exists log p,
       @invoke _ Sample.builder Sample.runtime Sample.client (DeleteZone (Some (JStr "abc123"))) 1546300800000
       = (log, inr p)
       /\ rejected_in (events (deliver p (Responded resp) 1546300800250)) = false
       /\ state (deliver p (Responded resp) 1546300800250) = Pending.
Proof.
  intros resp.
  assert (Hlt : Resp.statusCode resp < 400) by (cbn; lia).
  split; [ exact Hlt | ].
  destruct (@invoke _ Sample.builder Sample.runtime Sample.client (DeleteZone (Some (JStr "abc123")))
              1546300800000) as [log [e | p]] eqn:E; [ discriminate E | ].
  exists log, p. split; [ reflexivity | ].
  destruct (@below_400_never_rejects _ Sample.builder Sample.runtime Sample.client _ _ log p
              resp 1546300800250 E Hlt) as (Hr & _ & [ (v & Hs & _) | (e' & Hs & _) ]).
  - split; [ exact Hr | ]. injection E as _ <-. vm_compute in Hs. discriminate Hs.
  - split; [ exact Hr | exact Hs ].
Defined.

(** X3 on the 404 of the spec's scenario. *)
Lemma settles_at_most_once_not_found :
  exists log p,
    @invoke _ Sample.builder Sample.runtime Sample.client (GetZone (Some (JStr "abc123"))) 1546300800000
    = (log, inr p)
    /\ (settlements (events (deliver p (Responded Sample.not_found) 1546300800250)) <= 1)%nat.
Proof.
  destruct (@invoke _ Sample.builder Sample.runtime Sample.client (GetZone (Some (JStr "abc123")))
              1546300800000) as [log [e | p]] eqn:E; [ discriminate E | ].
  exists log, p. split; [ reflexivity | ].
  exact (proj1 (@settles_at_most_once _ Sample.builder Sample.runtime Sample.client _ _ log p
                  (Responded Sample.not_found) 1546300800250 E)).
Defined.

(** ** The message of a remote rejection *)

Lemma uint_to_string_no_colon d : has_colon (JSON.uint_to_string d) = false.
Proof. induction d; cbn [JSON.uint_to_string has_colon]; try rewrite IHd; reflexivity. Qed.

Lemma Number_toString_no_colon z : has_colon (JSON.Number_toString z) = false.
Proof.
  destruct z as [ | p | p ]; cbn [JSON.Number_toString has_colon];
    rewrite ?uint_to_string_no_colon; reflexivity.
Qed.

Lemma Number_toString_inj z z' : JSON.Number_toString z = JSON.Number_toString z' -> z = z'.
Proof.
  intros E.
  pose proof (JSONFacts.parse_number_toString z "" eq_refl) as H.
  pose proof (JSONFacts.parse_number_toString z' "" eq_refl) as H'.
  rewrite E in H. rewrite H in H'. congruence.
Qed.

(** Two texts cut at their first colon: equal wholes have equal parts. *)
Lemma split_at_colon a a' b b' :
  has_colon a = false -> has_colon a' = false ->
  a ++ ": " ++ b = a' ++ ": " ++ b' -> a = a' /\ b = b'.
Proof.
  revert a'. induction a as [ | c a IH ]; intros [ | c' a' ] Ha Ha' E.
  - rewrite !append_empty_l in E. apply (inj (String.app ": ")) in E. split; [ reflexivity | exact E ].
  - exfalso. rewrite append_empty_l, !append_cons in E. injection E as <- _. discriminate Ha'.
  - exfalso. rewrite append_empty_l, !append_cons in E. injection E as -> _. discriminate Ha.
  - rewrite !append_cons in E. injection E as <- E.
    cbn [has_colon] in Ha, Ha'. apply orb_false_iff in Ha as [_ Ha]. apply orb_false_iff in Ha' as [_ Ha'].
    destruct (IH a' Ha Ha' E) as [-> ->]. split; reflexivity.
Qed.

(** X4: the status code and the body can be read back from a remote
    rejection: two responses of 400 or more that reject with the same
    error are the same response. *)
Theorem rejection_message_determines_response resp resp' later later' :
  400 <= Resp.statusCode resp -> 400 <= Resp.statusCode resp' ->
  state (deliver callback (Responded resp) later) = state (deliver callback (Responded resp') later') ->
  resp = resp'.
Proof.
  intros Hge Hge' E.
  rewrite (callback_remote_rejection _ _ Hge), (callback_remote_rejection _ _ Hge') in E.
  cbn [state] in E. injection E as E.
  apply split_at_colon in E as [Hs Hb]; try apply Number_toString_no_colon.
  apply Number_toString_inj in Hs.
  destruct resp, resp'; cbn in *; congruence.
Qed.

(** X4 on the 404 of the spec's scenario. *)
Lemma rejection_message_determines_not_found :
  400 <= Resp.statusCode Sample.not_found
  /\ state (deliver callback (Responded Sample.not_found) 0)
     = state (deliver callback (Responded Sample.not_found) 1)
  /\ Sample.not_found = Sample.not_found.
Proof.
  assert (H : 400 <= Resp.statusCode Sample.not_found) by (cbn; lia).
  split; [ exact H | ]. split; [ reflexivity | ].
  exact (rejection_message_determines_response Sample.not_found Sample.not_found 0 1 H H eq_refl).
Defined.

(** ** The descriptor *)

Lemma stringify_not_empty v : JSON.stringify v <> "".
Proof.
  intros E. pose proof (JSONFacts.stringify_opens v "") as H.
  rewrite append_empty_r, E in H. exact H.
Qed.

Lemma upper_not_lower c : is_lower (upper c) = false.
Proof. destruct c as [[] [] [] [] [] [] [] []]; reflexivity. Qed.

Lemma toUpperCase_no_lower s : has_lower (toUpperCase s) = false.
Proof.
  induction s as [ | c s IH ]; [ reflexivity | ].
  cbn [toUpperCase has_lower]. rewrite upper_not_lower, IH. reflexivity.
Qed.

Lemma upper_idem c : upper (upper c) = upper c.
Proof. destruct c as [[] [] [] [] [] [] [] []]; reflexivity. Qed.

Lemma toUpperCase_idem s : toUpperCase (toUpperCase s) = toUpperCase s.
Proof.
  induction s as [ | c s IH ]; [ reflexivity | ].
  cbn [toUpperCase]. rewrite upper_idem, IH. reflexivity.
Qed.

Lemma toUpperCase_empty s : toUpperCase s = "" -> s = "".
Proof. destruct s; [ reflexivity | discriminate ]. Qed.

Section DescriptorFacts.
Context {runtime : Runtime}.

(** X5: the body of a descriptor is the empty string exactly when no body
    is given or the one given is falsy ([null], [0], [false], the empty
    string); a truthy body never encodes to the empty string. *)
Theorem body_empty_iff_no_body opts :
  Req.body (_requestOptions opts) = "" <-> no_body (Opts.body opts) = true.
Proof.
  unfold _requestOptions, no_body. cbn [Req.body].
  destruct (Opts.body opts) as [ b | ]; [ | split; reflexivity ].
  destruct (truthy b) eqn:Ht; cbn [negb]; split; intros H; try reflexivity; try discriminate.
  exfalso. exact (stringify_not_empty b H).
Qed.

(** X6: the body is a faithful encoding of a truthy JSON-representable
    value of any kind (object, array, number, string, [true]):
    [JSON.parse] gives the value back, so two such values with the same
    body are the same value. *)
Theorem body_determines_truthy_value opts opts' b b' :
  Opts.body opts = Some b -> Opts.body opts' = Some b' ->
  truthy b = true -> truthy b' = true ->
  representable b = true -> representable b' = true ->
  JSON.parse (Req.body (_requestOptions opts)) = inr b
  /\ (Req.body (_requestOptions opts) = Req.body (_requestOptions opts') -> b = b').
Proof.
  intros Hb Hb' Ht Ht' Hr Hr'.
  assert (E : forall o v, Opts.body o = Some v -> truthy v = true -> representable v = true ->
                          JSON.parse (Req.body (_requestOptions o)) = inr v).
  { intros o v Ho Hv Hrep. unfold _requestOptions. cbn [Req.body]. rewrite Ho, Hv.
    unfold JSON.parse. rewrite (JSONFacts.parse_text_stringify _ Hrep). reflexivity. }
  split; [ exact (E _ _ Hb Ht Hr) | ].
  intros Hsame. pose proof (E _ _ Hb Ht Hr) as H1. pose proof (E _ _ Hb' Ht' Hr') as H2.
  rewrite Hsame in H1. congruence.
Qed.

(** X7: the method of a descriptor is never empty and holds no lower-case
    ASCII letter; the descriptor does not change when the method given is
    replaced by its upper-case form. *)
Theorem method_is_upper_case opts :
  Req.method (_requestOptions opts) <> ""
  /\ has_lower (Req.method (_requestOptions opts)) = false
  /\ (forall m, Opts.method opts = Some m ->
        _requestOptions {| Opts.url := Opts.url opts; Opts.method := Some (toUpperCase m);
                           Opts.body := Opts.body opts |}
        = _requestOptions opts).
Proof.
  unfold _requestOptions. cbn [Req.method]. split; [ | split ].
  - destruct (Opts.method opts) as [ m | ]; [ | discriminate ].
    destruct (String.eqb_spec m ""); [ discriminate | ].
    intros E. apply toUpperCase_empty in E. contradiction.
  - destruct (Opts.method opts) as [ m | ]; [ | reflexivity ].
    destruct (String.eqb m ""); [ reflexivity | apply toUpperCase_no_lower ].
  - intros m Hm. rewrite Hm. cbn [Opts.url Opts.method Opts.body].
    destruct (String.eqb_spec m "") as [ -> | Hne ]; [ reflexivity | ].
    destruct (String.eqb_spec (toUpperCase m) "") as [ E | _ ].
    + apply toUpperCase_empty in E. contradiction.
    + rewrite toUpperCase_idem. reflexivity.
Qed.

End DescriptorFacts.

(** X6 on an array and on the sample group. *)
Lemma body_determines_group :
  truthy (JArr []) = true /\ truthy (JObj Sample.team_a) = true
  /\ JSON.parse (Req.body (@_requestOptions Sample.runtime
        {| Opts.url := "https://api.example.com/groups"; Opts.method := Some "post";
           Opts.body := Some (JArr []) |})) = inr (JArr []).
Proof.
  split; [ reflexivity | ]. split; [ reflexivity | ].
  exact (proj1 (@body_determines_truthy_value Sample.runtime
           {| Opts.url := "https://api.example.com/groups"; Opts.method := Some "post";
              Opts.body := Some (JArr []) |}
           {| Opts.url := "https://api.example.com/groups"; Opts.method := Some "post";
              Opts.body := Some (JObj Sample.team_a) |}
           (JArr []) (JObj Sample.team_a) eq_refl eq_refl eq_refl eq_refl eq_refl eq_refl)).
Defined.

(** ** The facade *)

Section FacadeFacts.
Context {U : Type} {builder : Urls.Builder U} {runtime : Runtime}.
Implicit Types (this : VinylDNS U) (op : operation).

Lemma prop_nullish (o : value) k now :
  nullish o = true -> exists e, prop o k now = ([], inl e) /\ Error.name e = "TypeError".
Proof. destruct o as [ [ | | | | | ] | ]; try discriminate; intros _; eexists; split; reflexivity. Qed.

Lemma prop_field (o : value) k now :
  nullish o = false -> prop o k now = ([], inr (field o k)).
Proof. destruct o as [ [ | | | | | ] | ]; try discriminate; reflexivity. Qed.

(** X8: [updateZone], [createRecordSet] and [updateGroup] read a property
    of the resource before anything else.  Given [undefined] or [null]
    they throw a [TypeError] at once and nothing is signed or sent; given
    anything else they sign and send one request. *)
Theorem nullish_resource_throws_at_once this (r : value) now :
  let throws_or_sends op :=
    if nullish r
    then exists e, invoke this op now = ([], inl e) /\ Error.name e = "TypeError"
    else exists d signed,
        invoke this op now = ([Sign d (credentials_of this); Send signed], inr callback) in
  throws_or_sends (UpdateZone r) /\ throws_or_sends (CreateRecordSet r)
  /\ throws_or_sends (UpdateGroup r).
Proof.
  intros throws_or_sends. unfold throws_or_sends.
  destruct (nullish r) eqn:Hn.
  - repeat split;
      cbn [invoke]; unfold updateZone, createRecordSet, updateGroup, bind;
      match goal with |- context [prop r ?k now] =>
        destruct (prop_nullish r k now Hn) as (e & -> & He) end;
      exists e; (split; [ reflexivity | exact He ]).
  - repeat split;
      cbn [invoke]; unfold updateZone, createRecordSet, updateGroup, bind;
      rewrite (prop_field r _ now Hn); eexists _, _; reflexivity.
Qed.

(** X9: [createZone], [createBatchChange] and [createGroup] never throw,
    whatever they are given: they POST to a URL that does not depend on
    the resource, and when the resource is missing or falsy the request
    goes out with an empty body. *)
Theorem collection_create_always_posts this (r : value) now :
  let posts op m :=
    exists d signed,
      invoke this op now = ([Sign d (credentials_of this); Send signed], inr callback)
      /\ Req.method d = "POST"
      /\ Req.uri d = Urls.call (urls this) m []
      /\ Req.body d = encoded r
      /\ (no_body r = true -> Req.body d = "") in
  posts (CreateZone r) Urls.zonesBase /\ posts (CreateBatchChange r) Urls.batchChanges
  /\ posts (CreateGroup r) Urls.groupsBase.
Proof.
  intros posts. unfold posts.
  assert (He : no_body r = true -> encoded r = "").
  { unfold no_body, encoded. destruct r as [ v | ]; [ | reflexivity ].
    destruct (truthy v); [ discriminate | reflexivity ]. }
  repeat split; eexists _, _; (split; [ reflexivity | ]); repeat split; exact He.
Qed.

(** X10: the descriptor an operation builds does not depend on the
    credentials of the client: two clients with the same URL builder hand
    the same descriptor to the signer, or throw the same error, whatever
    their configurations.  The credentials go to the signer and nowhere
    else. *)
Theorem descriptor_ignores_credentials (u : U) (cfg cfg' : Config.t) op now now' :
  let this := {| config := cfg; urls := u |} in
  let this' := {| config := cfg'; urls := u |} in
  match invoke this op now, invoke this' op now' with
  | (log, inr _), (log', inr _) =>
    exists d,
      log = [Sign d (credentials_of this); Send (aws4_sign d (credentials_of this) now)]
      /\ log' = [Sign d (credentials_of this'); Send (aws4_sign d (credentials_of this') now')]
  | (log, inl e), (log', inl e') => log = [] /\ log' = [] /\ e = e'
  | _, _ => False
  end.
Proof.
  intros this this'.
  destruct op as [ q | id | id q | id | z | z | id | z q | d | r | r | d | d | z q | q | id | b
                 | q | id | id q | id | id q | g | g | id ];
    try (eexists; split; reflexivity).
  - destruct z as [ [ | | | | | ] | ]; first [ eexists; split; reflexivity | repeat split ].
  - destruct r as [ [ | | | | | ] | ]; first [ eexists; split; reflexivity | repeat split ].
  - destruct g as [ [ | | | | | ] | ]; first [ eexists; split; reflexivity | repeat split ].
Qed.

(** X11: an update addresses the resource by the identifier it carries.
    [updateZone] asks the URL builder for the zone whose id is the
    resource's [id] (or [undefined] when it has none), which is the URL
    [getZone] and [deleteZone] use for that id; likewise for groups; and
    [getRecordSet], [updateRecordSet] and [deleteRecordSet] of the same
    value use one URL.  The body of the update is the whole resource. *)
Theorem update_addresses_resource_by_id this (r : value) now :
  nullish r = false ->
  let target op := Req.uri <$> signed_descriptor (invoke this op now) in
  target (UpdateZone r) = Some (Urls.call (urls this) Urls.zone [field r "id"])
  /\ target (UpdateZone r) = target (GetZone (field r "id"))
  /\ target (UpdateZone r) = target (DeleteZone (field r "id"))
  /\ target (UpdateGroup r) = target (GetGroup (field r "id"))
  /\ target (UpdateGroup r) = target (DeleteGroup (field r "id"))
  /\ target (UpdateRecordSet r) = target (GetRecordSet r)
  /\ target (UpdateRecordSet r) = target (DeleteRecordSet r)
  /\ Req.body <$> signed_descriptor (invoke this (UpdateZone r) now) = Some (encoded r).
Proof.
  intros Hn target. unfold target.
  cbn [invoke]. unfold updateZone, updateGroup, bind. rewrite !(prop_field r _ now Hn).
  repeat split.
Qed.

End FacadeFacts.

(** X11 on a zone that carries its id. *)
Lemma update_addresses_sample_zone :
  let r := Some (JObj [("id", JStr "abc123"); ("name", JStr "example.")]) in
  nullish r = false
  /\ Req.uri <$> signed_descriptor
                   (@invoke _ Sample.builder Sample.runtime Sample.client (UpdateZone r) 1546300800000)
     = Some "https://api.example.com/zones/abc123".
Proof.
  intros r. split; [ reflexivity | ].
  exact (proj1 (@update_addresses_resource_by_id _ Sample.builder Sample.runtime
                  Sample.client r 1546300800000 eq_refl)).
Defined.
